(** * update-latest-and-redirects.py: canonical links and redirect pages

    A shallow embedding of [docs/src/main/scripts/update-latest-and-redirects.py]
    and the properties of its canonical-link stamping and redirect synthesis.

    Conventions of the embedding:
    - text is a [string] of one-byte characters; the documents the patterns
      are run on are ASCII, [\s] is the ASCII part of Python's whitespace class;
    - a path is the list of its components below a fixed anchor (the root, or
      the working directory), so [PurePath.joinpath] is [++] and
      [PurePath.relative_to] strips a prefix; [os.sep] is ["/"];
    - the file system is a finite map from paths to nodes, and every function
      that touches it runs in a state-and-exception monad over a [world]
      (file system and standard output). *)

From stdpp Require Import gmap strings list.
From Stdlib Require Import ZArith Ascii String Lia.

Local Open Scope string_scope.
Local Open Scope Z_scope.
Local Open Scope nat_scope.
Local Open Scope list_scope.

(** ** Text helpers *)

Module Text.

Definition nl : ascii := "010"%char.
Definition cr : ascii := "013"%char.
Definition dq : ascii := "034"%char.   (* the double quote *)
Definition sq : ascii := "039"%char.   (* the single quote *)

(** [s.startswith(p)], returning what follows the prefix. *)
Fixpoint strip_prefix (p s : string) : option string :=
  match p, s with
  | EmptyString, _ => Some s
  | String a p', String b s' => if Ascii.eqb a b then strip_prefix p' s' else None
  | String _ _, EmptyString => None
  end.

Definition startswith (s p : string) : bool :=
  match strip_prefix p s with Some _ => true | None => false end.

(** [sub in s] on strings. *)
Fixpoint contains (sub s : string) : bool :=
  startswith s sub ||
  match s with
  | EmptyString => false
  | String _ s' => contains sub s'
  end.

Fixpoint rev_string (s acc : string) : string :=
  match s with
  | EmptyString => acc
  | String c s' => rev_string s' (String c acc)
  end.

(** [s.endswith(p)]. *)
Definition endswith (s p : string) : bool :=
  startswith (rev_string s "") (rev_string p "").

Fixpoint take (n : nat) (s : string) : string :=
  match n, s with
  | S n', String c s' => String c (take n' s')
  | _, _ => EmptyString
  end.

Fixpoint drop (n : nat) (s : string) : string :=
  match n, s with
  | S n', String _ s' => drop n' s'
  | _, _ => s
  end.

(** Python's clamping of a slice bound: a negative bound counts from the end. *)
Definition slice_bound (s : string) (i : Z) : nat :=
  let len := Z.of_nat (String.length s) in
  if (i <? 0)%Z then Z.to_nat (Z.max 0 (len + i)) else Z.to_nat (Z.min i len).

(** [s[:i]] and [s[i:]]. *)
Definition slice_to (s : string) (i : Z) : string := take (slice_bound s i) s.
Definition slice_from (s : string) (i : Z) : string := drop (slice_bound s i) s.

(** [sep.join(parts)]. *)
Fixpoint join (sep : string) (parts : list string) : string :=
  match parts with
  | [] => ""
  | [p] => p
  | p :: rest => p +:+ sep +:+ join sep rest
  end.

(** ["".join(parts)], what [writelines] puts in the file. *)
Fixpoint concat_all (parts : list string) : string :=
  match parts with
  | [] => ""
  | p :: rest => p +:+ concat_all rest
  end.

(** Text mode with universal newlines: on reading, ["\r\n"] and a lone
    ["\r"] become ["\n"]. *)
Fixpoint universal_newlines (s : string) : string :=
  match s with
  | EmptyString => EmptyString
  | String c s' =>
      if Ascii.eqb c cr then
        match s' with
        | String d s'' =>
            if Ascii.eqb d nl then universal_newlines s'
            else String nl (universal_newlines s')
        | EmptyString => String nl EmptyString
        end
      else String c (universal_newlines s')
  end.

(** [readlines()]: the text cut after every ["\n"], line ends kept. *)
Fixpoint split_lines_aux (s cur : string) : list string :=
  match s with
  | EmptyString =>
      match cur with
      | EmptyString => []
      | _ => [rev_string cur ""]
      end
  | String c s' =>
      if Ascii.eqb c nl then rev_string (String c cur) "" :: split_lines_aux s' ""
      else split_lines_aux s' (String c cur)
  end.

Definition readlines (s : string) : list string := split_lines_aux s "".

End Text.

(** ** The fragment of Python's [re] the script uses

    A pattern is a sequence of atoms; matching is the backtracking search of
    [re], so the match found is the first one in Python's priority order
    (a greedy star tries the longest run first, a lazy one the shortest).
    None of the script's patterns can match the empty string. *)

Module Re.

Inductive atom : Type :=
| Lit (s : string)               (* literal text *)
| Cls (p : ascii -> bool)        (* one character of a class: [..] *)
| Star (p : ascii -> bool)       (* p*  , greedy *)
| StarLazy (p : ascii -> bool)   (* p*? , lazy *)
| Bol                            (* ^ *)
| Eol.                           (* $ *)

Definition regex : Type := list atom.

(** [.] : any character but a newline. *)
Definition dot (c : ascii) : bool := negb (Ascii.eqb c Text.nl).

(** [\s] on ASCII: tab, newline, vertical tab, form feed, carriage return,
    the separators 28 to 31, and the space. *)
Definition space (c : ascii) : bool :=
  let n := nat_of_ascii c in
  ((9 <=? n) && (n <=? 13)) || ((28 <=? n) && (n <=? 32)).

(** The class of the two quote characters, double and single. *)
Definition quote (c : ascii) : bool :=
  Ascii.eqb c Text.dq || Ascii.eqb c Text.sq.

(** [$] without MULTILINE: at the end, or just before a final newline. *)
Definition at_eol (s : string) : bool :=
  match s with
  | EmptyString => true
  | String c EmptyString => Ascii.eqb c Text.nl
  | _ => false
  end.

(** [m_here r at0 s]: the pattern matched at the head of [s]; [at0] says
    that [s] is the whole subject (position 0).  The result is the number of
    characters the match covers. *)
Fixpoint m_here (r : regex) (at0 : bool) (s : string) {struct r} : option nat :=
  match r with
  | [] => Some 0
  | Lit l :: r' =>
      match Text.strip_prefix l s with
      | Some s' =>
          match m_here r' (at0 && (String.length l =? 0)) s' with
          | Some n => Some (String.length l + n)
          | None => None
          end
      | None => None
      end
  | Cls p :: r' =>
      match s with
      | String c s' =>
          if p c then
            match m_here r' false s' with
            | Some n => Some (S n)
            | None => None
            end
          else None
      | EmptyString => None
      end
  | Star p :: r' =>
      (fix greedy (s : string) (at0 : bool) {struct s} : option nat :=
         match s with
         | String c s' =>
             if p c then
               match greedy s' false with
               | Some n => Some (S n)
               | None => m_here r' at0 s
               end
             else m_here r' at0 s
         | EmptyString => m_here r' at0 s
         end) s at0
  | StarLazy p :: r' =>
      (fix lazy (s : string) (at0 : bool) {struct s} : option nat :=
         match m_here r' at0 s with
         | Some n => Some n
         | None =>
             match s with
             | String c s' =>
                 if p c then
                   match lazy s' false with
                   | Some n => Some (S n)
                   | None => None
                   end
                 else None
             | EmptyString => None
             end
         end) s at0
  | Bol :: r' => if at0 then m_here r' at0 s else None
  | Eol :: r' => if at_eol s then m_here r' at0 s else None
  end.

(** [re.match(r, s)]: truthy when the pattern matches at position 0. *)
Definition re_match (r : regex) (s : string) : bool :=
  match m_here r true s with Some _ => true | None => false end.

(** [re.search(r, s)]: start and length of the leftmost match. *)
Fixpoint search_from (r : regex) (at0 : bool) (pos : nat) (s : string) : option (nat * nat) :=
  match m_here r at0 s with
  | Some n => Some (pos, n)
  | None =>
      match s with
      | String _ s' => search_from r false (S pos) s'
      | EmptyString => None
      end
  end.

Definition re_search (r : regex) (s : string) : option (nat * nat) :=
  search_from r true 0 s.

(** The scan shared by [re.findall] and [re.sub]: the subject cut into
    unmatched text ([inl]) and successive non-overlapping matches ([inr]).
    [skip] counts the characters of the current match still to be passed. *)
Fixpoint scan (r : regex) (at0 : bool) (skip : nat) (s : string) : list (ascii + string) :=
  match s with
  | EmptyString => []
  | String c s' =>
      match skip with
      | S k => scan r false k s'
      | O =>
          match m_here r at0 s with
          | Some (S k) => inr (Text.take (S k) s) :: scan r false k s'
          | _ => inl c :: scan r false 0 s'
          end
      end
  end.

(** [re.findall(r, s)] for a pattern without groups. *)
Definition re_findall (r : regex) (s : string) : list string :=
  omap (fun x => match x with inr m => Some m | inl _ => None end) (scan r true 0 s).

(** [re.sub(r, repl, s)] for a literal replacement. *)
Definition re_sub (r : regex) (repl : string) (s : string) : string :=
  Text.concat_all
    (map (fun x => match x with inr _ => repl | inl c => String c "" end) (scan r true 0 s)).

End Re.

(** ** Paths *)

Module Paths.

(** The components of a [PurePath] below the anchor. *)
Abbreviation path := (list string) (only parsing).

(** [p.relative_to(other)]; [None] stands for the [ValueError] raised when
    [other] is not an ancestor of [p]. *)
Fixpoint relative_to (p other : path) : option path :=
  match other, p with
  | [], _ => Some p
  | o :: other', x :: p' => if String.eqb o x then relative_to p' other' else None
  | _ :: _, [] => None
  end.

(** [str(p)] for a relative path, with [os.sep] already the URL separator. *)
Definition path_str (p : path) : string :=
  match p with
  | [] => "."
  | _ => Text.join "/" p
  end.

(** [p.parent]. *)
Definition parent (p : path) : path := removelast p.

(** Cutting a string at every ["/"], as [PurePath(s)] does for a relative
    string: empty components and ["."] components disappear. *)
Fixpoint split_sep (s cur : string) : list string :=
  match s with
  | EmptyString => [Text.rev_string cur ""]
  | String c s' =>
      if Ascii.eqb c "/"%char then Text.rev_string cur "" :: split_sep s' ""
      else split_sep s' (String c cur)
  end.

Definition is_real_component (c : string) : bool :=
  negb (String.eqb c "") && negb (String.eqb c ".").

Definition parse_path (s : string) : path :=
  filter (fun c => is_real_component c = true) (split_sep s "").

End Paths.

(** ** Canonical-link stamping of one document's lines *)

Module Canonical.

Import Re.

Definition q : string := String Text.dq "".
Definition nl : string := String Text.nl "".

(** The patterns, with DQ written for the double quote character.

    The redirect test, line 171:  meta.*http-equiv=[DQ']refresh[DQ'] *)
Definition META_REFRESH : regex :=
  [Lit "meta"; Star dot; Lit "http-equiv="; Cls quote; Lit "refresh"; Cls quote].

(** A whole-line canonical tag, line 174:
    ^\s*<link rel=[DQ']canonical[DQ'].*?>\n$ *)
Definition CANON_LINE : regex :=
  [Bol; Star space; Lit "<link rel="; Cls quote; Lit "canonical"; Cls quote;
   StarLazy dot; Lit ">"; Lit nl; Eol].

(** Canonical tags inside a line, lines 176 and 178:
    <link rel=[DQ']canonical[DQ'].*?>\s* *)
Definition CANON_INLINE : regex :=
  [Lit "<link rel="; Cls quote; Lit "canonical"; Cls quote; StarLazy dot; Lit ">"; Star space].

(** A head-closing tag on its own line, line 180:  ^\s*</head>\n$ *)
Definition HEAD_LINE : regex := [Bol; Star space; Lit "</head>"; Lit nl; Eol].

(** A head-closing tag inside a line, line 182:  </head>\s* *)
Definition HEAD_INLINE : regex := [Lit "</head>"; Star space].

(** The dataclass [HTMLTagMatch]. *)
Record HTMLTagMatch : Type := mkTag { line : option nat; col : option Z }.

Definition HTMLTagMatch_init : HTMLTagMatch := mkTag None None.

Definition set_match (h : HTMLTagMatch) (l : nat) (c : Z) : HTMLTagMatch :=
  match line h with
  | None => mkTag (Some l) (Some c)
  | Some _ => h
  end.

(** The state of the scanning loop: the list [c_file] being edited in
    place, [existing_canon_tags] and [head_closing_tag]. *)
Record scan_state : Type := mkScan {
  c_file : list string;
  existing_canon_tags : list nat;
  head_closing_tag : HTMLTagMatch
}.

Definition sum_len (l : list string) : nat := foldr (fun s n => String.length s + n) 0 l.

(** One iteration of [for idx, line in enumerate(c_file)]; [None] is the
    early [return] taken on a redirect page. *)
Definition scan_step (idx : nat) (ln : string) (st : scan_state) : option scan_state :=
  match re_search META_REFRESH ln with
  | Some _ => None
  | None =>
      let '(lines1, tags1, char_offset) :=
        if re_match CANON_LINE ln then
          (c_file st, existing_canon_tags st ++ [idx], 0)
        else
          match re_findall CANON_INLINE ln with
          | [] => (c_file st, existing_canon_tags st, 0)
          | line_tags =>
              (<[idx := re_sub CANON_INLINE "" ln]> (c_file st),
               existing_canon_tags st, sum_len line_tags)
          end in
      let head := head_closing_tag st in
      let head1 :=
        if re_match HEAD_LINE ln && bool_decide (line head = None) then
          mkTag (Some idx) (col head)
        else
          match re_search HEAD_INLINE ln with
          | Some (start, _) => set_match head idx (Z.of_nat start - Z.of_nat char_offset)
          | None => head
          end in
      Some (mkScan lines1 tags1 head1)
  end.

(** The whole loop over the lines as they were read. *)
Fixpoint scan_lines (idx : nat) (todo : list string) (st : scan_state) : option scan_state :=
  match todo with
  | [] => Some st
  | ln :: rest =>
      match scan_step idx ln st with
      | Some st' => scan_lines (S idx) rest st'
      | None => None
      end
  end.

(** [sorted(l, reverse=True)] on indices. *)
Fixpoint insert_desc (x : nat) (l : list nat) : list nat :=
  match l with
  | [] => [x]
  | y :: l' => if y <=? x then x :: l else y :: insert_desc x l'
  end.

Definition sorted_desc (l : list nat) : list nat := foldr insert_desc [] l.

(** [del c_file[idx]]; [None] is an [IndexError]. *)
Definition del_line (idx : nat) (l : list string) : option (list string) :=
  match l !! idx with
  | Some _ => Some (delete idx l)
  | None => None
  end.

(** The loop that deletes the whole-line tags, last first, and moves the
    recorded head line up with them. *)
Fixpoint delete_tags (idxs : list nat) (lines : list string) (head_line : nat)
  : option (list string * nat) :=
  match idxs with
  | [] => Some (lines, head_line)
  | idx :: rest =>
      match del_line idx lines with
      | Some lines' =>
          delete_tags rest lines' (if idx <? head_line then head_line - 1 else head_line)
      | None => None
      end
  end.

(** [l.insert(i, x)]: past the end it appends. *)
Definition list_insert_at (i : nat) (x : string) (l : list string) : list string :=
  firstn i l ++ x :: skipn i l.

(** What the function does with a document, before any file is written. *)
Inductive stamp_result : Type :=
| Stamped (new_lines : list string)   (* the lines handed to [writelines] *)
| RedirectPage                        (* the early [return] of the scan *)
| MissingHead                         (* no head-closing tag: message and [return] *)
| OutOfRange.                         (* an index out of range while editing *)

Definition stamp_lines (canonical_tag : string) (lines : list string) : stamp_result :=
  match scan_lines 0 lines (mkScan lines [] HTMLTagMatch_init) with
  | None => RedirectPage
  | Some st =>
      match line (head_closing_tag st) with
      | None => MissingHead
      | Some head_line0 =>
          match delete_tags (sorted_desc (existing_canon_tags st)) (c_file st) head_line0 with
          | None => OutOfRange
          | Some (lines1, head_line) =>
              match col (head_closing_tag st) with
              | Some c =>
                  match lines1 !! head_line with
                  | Some hl =>
                      Stamped (<[head_line :=
                                   Text.slice_to hl c +:+ canonical_tag +:+ " " +:+ Text.slice_from hl c]>
                                 lines1)
                  | None => OutOfRange
                  end
              | None => Stamped (list_insert_at head_line (canonical_tag +:+ nl) lines1)
              end
          end
      end
  end.

Definition canonical_tag_of (canonical_url : string) : string :=
  "<link rel=" +:+ q +:+ "canonical" +:+ q +:+ " href=" +:+ q +:+ canonical_url +:+ q +:+ ">".

End Canonical.

(** ** The file system and the monad of the script's effects *)

Module Sys.

Import Paths.

Inductive node : Type :=
| File (data : string)
| Dir.

#[global] Instance node_eq_dec : EqDecision node.
Proof. solve_decision. Defined.

(** What the script can observe and change: the files below the anchor and
    the lines printed on standard output. *)
Record world : Type := mkWorld {
  fs : gmap (list string) node;
  stdout : list string
}.

Inductive exn : Type :=
| ValueError | KeyError | IndexError
| FileNotFoundError | FileExistsError | IsADirectoryError | NotADirectoryError.

(** How a call ends: normally, by an exception that nothing in the script
    catches, or (for the tree walk only) with its recursion budget used up. *)
Inductive outcome (A : Type) : Type :=
| Ok (a : A)
| Raise (e : exn)
| OutOfFuel.

Arguments Ok {A} a.
Arguments Raise {A} e.
Arguments OutOfFuel {A}.

Definition M (A : Type) : Type := world -> outcome A * world.

Definition ret {A} (a : A) : M A := fun w => (Ok a, w).

Definition bind {A B} (m : M A) (k : A -> M B) : M B :=
  fun w =>
    match m w with
    | (Ok a, w') => k a w'
    | (Raise e, w') => (Raise e, w')
    | (OutOfFuel, w') => (OutOfFuel, w')
    end.

Definition raise {A} (e : exn) : M A := fun w => (Raise e, w).

(** Lifting a partial pure computation: [None] raises [e]. *)
Definition or_raise {A} (e : exn) (o : option A) : M A :=
  match o with
  | Some a => ret a
  | None => raise e
  end.

End Sys.

Notation "x <- c1 ;; c2" := (Sys.bind c1 (fun x => c2))
  (at level 100, c1 at next level, right associativity).
Notation "c1 ;; c2" := (Sys.bind c1 (fun _ => c2))
  (at level 100, right associativity).

Module Os.

Import Paths Sys.

(** The anchor itself is a directory that always exists. *)
Definition node_at (f : gmap (list string) node) (p : path) : option node :=
  match p with
  | [] => Some Dir
  | _ => f !! p
  end.

(** [Path(p).exists()] *)
Definition exists_ (p : path) : M bool :=
  fun w => (Ok (bool_decide (is_Some (node_at (fs w) p))), w).

(** [os.path.isdir(p)] *)
Definition isdir (p : path) : M bool :=
  fun w => (Ok (match node_at (fs w) p with Some Dir => true | _ => false end), w).

(** [print(msg)] *)
Definition print (msg : string) : M unit :=
  fun w => (Ok tt, mkWorld (fs w) (stdout w ++ [msg])).

(** [open(p, "r").read()], in text mode. *)
Definition read_text (p : path) : M string :=
  fun w =>
    match node_at (fs w) p with
    | Some (File data) => (Ok (Text.universal_newlines data), w)
    | Some Dir => (Raise IsADirectoryError, w)
    | None => (Raise FileNotFoundError, w)
    end.

(** [open(p, "w").write(data)]: the file is created or replaced whole. *)
Definition write_text (p : path) (data : string) : M unit :=
  fun w =>
    match node_at (fs w) p with
    | Some Dir => (Raise IsADirectoryError, w)
    | _ =>
        match node_at (fs w) (parent p) with
        | Some Dir => (Ok tt, mkWorld (<[p := File data]> (fs w)) (stdout w))
        | Some (File _) => (Raise NotADirectoryError, w)
        | None => (Raise FileNotFoundError, w)
        end
    end.

(** [os.mkdir(p)] *)
Definition mkdir (p : path) : M unit :=
  fun w =>
    match node_at (fs w) p with
    | Some _ => (Raise FileExistsError, w)
    | None =>
        match node_at (fs w) (parent p) with
        | Some Dir => (Ok tt, mkWorld (<[p := Dir]> (fs w)) (stdout w))
        | Some (File _) => (Raise NotADirectoryError, w)
        | None => (Raise FileNotFoundError, w)
        end
    end.

(** [try: m  except FileExistsError: pass] *)
Definition pass_file_exists (m : M unit) : M unit :=
  fun w =>
    match m w with
    | (Raise FileExistsError, w') => (Ok tt, w')
    | r => r
    end.

(** [try: mkdir(name)  except OSError: if not path.isdir(name): raise] *)
Definition mkdir_exist_ok (name : path) : M unit :=
  fun w =>
    match mkdir name w with
    | (Raise e, w') =>
        match node_at (fs w') name with
        | Some Dir => (Ok tt, w')
        | _ => (Raise e, w')
        end
    | r => r
    end.

(** [if head and tail and not path.exists(head): makedirs(head)], the
    recursive call being [rec]. *)
Definition make_head (rhead : list string) (rec : M unit) : M unit :=
  match rhead with
  | [] => ret tt
  | _ =>
      present <- exists_ (rev rhead) ;;
      if present then ret tt else pass_file_exists rec
  end.

(** [os.makedirs(p, exist_ok=True)], on the path written last component
    first: the missing ancestors are made first, then the directory. *)
Fixpoint makedirs_rev (rp : list string) : M unit :=
  match rp with
  | [] => ret tt
  | _ :: rhead => make_head rhead (makedirs_rev rhead) ;; mkdir_exist_ok (rev rp)
  end.

Definition makedirs (p : path) : M unit := makedirs_rev (rev p).

(** [os.scandir(d)]: names and kinds of the entries of a directory; a path
    that is not a directory has none ([os.walk] ignores the error). *)
Definition scandir (f : gmap (list string) node) (d : path) : list (string * node) :=
  match node_at f d with
  | Some Dir =>
      omap (fun '(p, n) =>
              match relative_to p d with
              | Some [name] => Some (name, n)
              | _ => None
              end) (map_to_list f)
  | _ => []
  end.

Definition file_names (l : list (string * node)) : list string :=
  omap (fun '(name, n) => match n with File _ => Some name | Dir => None end) l.

Definition dir_names (l : list (string * node)) : list string :=
  omap (fun '(name, n) => match n with Dir => Some name | File _ => None end) l.

(** A [for] loop over a list. *)
Fixpoint for_each {A} (l : list A) (body : A -> M unit) : M unit :=
  match l with
  | [] => ret tt
  | x :: rest => body x ;; for_each rest body
  end.

(** [for parent, dirs, files in os.walk(top): body(parent, files)].
    The walk is a generator: a directory is listed when the loop reaches it,
    after the body has run on everything before it, so the listing reads the
    file system as the body left it.  [fuel] bounds the depth. *)
Fixpoint walk (fuel : nat) (top : path) (body : path -> list string -> M unit) : M unit :=
  match fuel with
  | O => fun w => (OutOfFuel, w)
  | S fuel' =>
      entries <- (fun w => (Ok (scandir (fs w) top), w)) ;;
      body top (file_names entries) ;;
      for_each (dir_names entries) (fun d => walk fuel' (top ++ [d]) body)
  end.

End Os.

(** ** The script *)

Module Script.

Import Paths Sys Os Canonical.

(** [REMOVED_REDIRECT_TEMPLATE], six pieces. *)
Definition REMOVED_REDIRECT_TEMPLATE : list string :=
  [ "<!DOCTYPE html>" +:+ nl +:+
    "<html lang=" +:+ q +:+ "en" +:+ q +:+ ">" +:+ nl +:+
    "  <head>" +:+ nl +:+
    "    <meta charset=" +:+ q +:+ "UTF-8" +:+ q +:+ ">" +:+ nl +:+
    "    <meta http-equiv=" +:+ q +:+ "refresh" +:+ q +:+ " content=" +:+ q +:+ "3; url=";
    q +:+ ">" +:+ nl +:+
    "    <link rel=" +:+ q +:+ "canonical" +:+ q +:+ " href=" +:+ q;
    q +:+ " />" +:+ nl +:+
    "  </head>" +:+ nl +:+
    "  <body>" +:+ nl +:+
    "    <p>The page does not exist in this version (";
    "). You will be redirected to the last available version in 3 seconds.</p>" +:+ nl +:+
    "    <p>If the page doesn't open, click the following link: <a href=" +:+ q;
    q +:+ ">";
    "</a></p>" +:+ nl +:+
    "  </body>" +:+ nl +:+
    "</html>" ].

(** [REL_PATH_PATTERN = (/)?([^/]+)] at the head of [s]: the two groups
    ([None] for a group that took no part) and the length of the match. *)
Fixpoint span_no_sep (s : string) : string :=
  match s with
  | String c s' => if Ascii.eqb c "/"%char then "" else String c (span_no_sep s')
  | EmptyString => ""
  end.

Definition rel_path_match (s : string) : option (list (option string) * nat) :=
  let with_sep :=
    match s with
    | String c s' =>
        if Ascii.eqb c "/"%char then
          match span_no_sep s' with
          | EmptyString => None
          | seg => Some ([Some "/"; Some seg], S (String.length seg))
          end
        else None
    | EmptyString => None
    end in
  match with_sep with
  | Some m => Some m
  | None =>
      match span_no_sep s with
      | EmptyString => None
      | seg => Some ([None; Some seg], String.length seg)
      end
  end.

(** [rel_path_replace(matched)], on [matched.groups()]. *)
Definition rel_path_replace (groups : list (option string)) : string :=
  fold_left
    (fun replacement m =>
       match m with
       | Some m => replacement +:+ (if negb (Text.contains "/" m) then ".." else "/")
       | None => replacement
       end)
    groups "".

(** [re.sub(REL_PATH_PATTERN, rel_path_replace, s)] *)
Fixpoint rel_path_sub (skip : nat) (s : string) : string :=
  match s with
  | EmptyString => ""
  | String c s' =>
      match skip with
      | S k => rel_path_sub k s'
      | O =>
          match rel_path_match s with
          | Some (groups, S k) => rel_path_replace groups +:+ rel_path_sub k s'
          | _ => String c (rel_path_sub 0 s')
          end
      end
  end.

(** [generate_canonical_url]; [None] is the [ValueError] of a
    [relative_to] whose argument is not an ancestor. *)
Definition generate_canonical_url
    (base_docs_path canon_file canon_dir_path : path) (current_dirname : string)
  : option (path * string) :=
  match relative_to canon_file canon_dir_path with
  | None => None
  | Some rel =>
      let redirect_file := (base_docs_path ++ parse_path current_dirname) ++ rel in
      match relative_to redirect_file base_docs_path with
      | None => None
      | Some rel_redirect =>
          let redirect_url := parse_path (rel_path_sub 0 (path_str rel_redirect)) in
          match relative_to canon_file base_docs_path with
          | None => None
          | Some rel_canon => Some (redirect_file, path_str (redirect_url ++ rel_canon))
          end
      end
  end.

(** The URL both callers use once the addressing mode is applied. *)
Definition absolute_url (base_docs_path file : path) : option string :=
  match relative_to file base_docs_path with
  | Some rel => Some ("/" +:+ path_str rel)
  | None => None
  end.

Definition missing_head_message (current_file : path) : string :=
  "Unable to update canonical link for " +:+ path_str current_file +:+
  " due to missing </head> tag".

(** [create_canonical_tag] *)
Definition create_canonical_tag
    (base_docs_path current_docs_path current_file : path)
    (version : string) (use_abs_path : bool) : M unit :=
  vc <- or_raise ValueError
          (generate_canonical_url base_docs_path current_file current_docs_path version) ;;
  canonical_url <-
    (if use_abs_path then or_raise ValueError (absolute_url base_docs_path current_file)
     else ret (snd vc)) ;;
  let canonical_tag := canonical_tag_of canonical_url in
  text <- read_text current_file ;;
  match stamp_lines canonical_tag (Text.readlines text) with
  | RedirectPage => ret tt
  | MissingHead => print (missing_head_message current_file)
  | OutOfRange => raise IndexError
  | Stamped new_lines => write_text current_file (Text.concat_all new_lines)
  end.

(** The inner loop of [canonical_tag_walker], [for f in files]. *)
Definition canonical_tag_files
    (base_docs_path current_docs_path : path) (version : string) (use_abs_path : bool)
    (parent : path) (files : list string) : M unit :=
  for_each files
    (fun f =>
       if Text.endswith f ".html" then
         create_canonical_tag base_docs_path current_docs_path (parent ++ [f])
           version use_abs_path
       else ret tt).

(** [canonical_tag_walker] *)
Definition canonical_tag_walker (fuel : nat)
    (base_docs_path current_docs_path : path) (version : string) (use_abs_path : bool)
  : M unit :=
  walk fuel current_docs_path
    (canonical_tag_files base_docs_path current_docs_path version use_abs_path).

(** *** Redirect pages

    The HTML parser is a library the script imports, so the two queries made
    of it are parameters: each gives the attribute dictionary of the first
    tag it finds. *)

Section Redirects.

(** [BeautifulSoup(text, "html.parser").find("meta", attrs={"http-equiv": "refresh"})] *)
Variable soup_find_meta_refresh : string -> option (gmap string string).

(** [BeautifulSoup(text, "html.parser").find("link", rel="canonical")] *)
Variable soup_find_link_canonical : string -> option (gmap string string).

(** The target kept for the redirect once the previous page was looked at;
    [tag[key]] is a [KeyError] when the attribute is missing. *)
Definition inherited_redirect_url (text redirect_url : string) : M string :=
  match soup_find_meta_refresh text with
  | Some static_redirect =>
      match soup_find_link_canonical text with
      | Some canon_link =>
          href <- or_raise KeyError (canon_link !! "href") ;;
          content <- or_raise KeyError (static_redirect !! "content") ;;
          if Text.contains href content then ret href else ret redirect_url
      | None => ret redirect_url
      end
  | None => ret redirect_url
  end.

(** [url.join(pieces)] on a slice of the template, with the version text
    between the two halves. *)
Definition render_redirect (redirect_url version_text : string) : string :=
  Text.join redirect_url (firstn 3 REMOVED_REDIRECT_TEMPLATE) +:+
  version_text +:+
  Text.join redirect_url (skipn 3 REMOVED_REDIRECT_TEMPLATE).

(** The text of the redirect page: [if product_name:] is false for [None]
    and for the empty string. *)
Definition redirect_file_contents
    (product_name : option string) (current_version redirect_url : string) : string :=
  match product_name with
  | Some (String c name) =>
      render_redirect redirect_url (String c name +:+ " " +:+ current_version)
  | _ => render_redirect redirect_url current_version
  end.

(** [redirect_removed_file] *)
Definition redirect_removed_file
    (base_docs_path previous_docs_file : path)
    (current_dirname previous_dirname current_version : string)
    (use_abs_path : bool) (product_name : option string) : M unit :=
  fu <- or_raise ValueError
          (generate_canonical_url base_docs_path previous_docs_file
             (base_docs_path ++ parse_path previous_dirname) current_dirname) ;;
  let redirect_file := fst fu in
  redirect_url <-
    (if use_abs_path then or_raise ValueError (absolute_url base_docs_path previous_docs_file)
     else ret (snd fu)) ;;
  present <- exists_ redirect_file ;;
  if negb present then
    text <- read_text previous_docs_file ;;
    redirect_url <- inherited_redirect_url text redirect_url ;;
    makedirs (parent redirect_file) ;;
    write_text redirect_file (redirect_file_contents product_name current_version redirect_url)
  else ret tt.

(** The inner loop of [redirect_removed_walker], [for f in files]. *)
Definition redirect_removed_files
    (base_docs_path : path) (current_dirname previous_dirname current_version : string)
    (use_abs_path : bool) (product_name : option string)
    (parent : path) (files : list string) : M unit :=
  for_each files
    (fun f =>
       if Text.endswith f "html" then
         redirect_removed_file base_docs_path (parent ++ [f])
           current_dirname previous_dirname current_version use_abs_path product_name
       else ret tt).

(** [redirect_removed_walker] *)
Definition redirect_removed_walker (fuel : nat)
    (base_docs_path : path) (current_dirname previous_dirname current_version : string)
    (use_abs_path : bool) (product_name : option string) : M unit :=
  walk fuel (base_docs_path ++ parse_path previous_dirname)
    (redirect_removed_files base_docs_path current_dirname previous_dirname current_version
       use_abs_path product_name).

End Redirects.

End Script.

(** * Vocabulary of the properties *)

Import Paths Sys Os Canonical Script.

(** ** Recognising the two markers *)

(** A line the scan takes for a redirect page's meta-refresh tag. *)
Definition is_meta_refresh_line (ln : string) : bool :=
  match Re.re_search META_REFRESH ln with Some _ => true | None => false end.


(** The opening of a meta-refresh tag as the pages have it, with one kind
    of quote, and the lines in which that text occurs. *)
Definition refresh_tag_opening (qc : ascii) : string :=
  "<meta http-equiv=" +:+ String qc ("refresh" +:+ String qc "").

Definition has_refresh_tag_text (ln : string) : bool :=
  Text.contains (refresh_tag_opening Text.dq) ln ||
  Text.contains (refresh_tag_opening Text.sq) ln.



(** ** Reading and stamping one file *)

(** The lines [create_canonical_tag] reads from a file's bytes. *)
Definition document_lines (data : string) : list string :=
  Text.readlines (Text.universal_newlines data).


(** ** Effects on the file system *)

(** No ancestor of a path (written last component first), nor the path
    itself, is a regular file. *)
Fixpoint no_file_above (f : gmap (list string) node) (rp : list string) : bool :=
  match rp with
  | [] => true
  | _ :: rhead =>
      match node_at f (rev rp) with
      | Some (File _) => false
      | _ => true
      end && no_file_above f rhead
  end.

(** What one call may have done to the file system: every path whose node
    differs was absent before and satisfies [created] now. *)
Definition only_created (created : path -> node -> Prop) (w w' : world) : Prop :=
  forall p, fs w' !! p <> fs w !! p ->
    fs w !! p = None /\ exists n, fs w' !! p = Some n /\ created p n.

(** A directory made by [makedirs p]: an ancestor of [p], or [p]. *)
Definition made_dir (target : path) (p : path) (n : node) : Prop :=
  n = Dir /\ p `prefix_of` target.

(** ** Redirect pages *)

(** The URL before the previous page is looked at, in either addressing mode. *)
Definition candidate_url (base prev : path) (abs : bool) (url0 : string) : option string :=
  if abs then absolute_url base prev else Some url0.

(** What [redirect_removed_file] may create: the redirect file, and
    directories on the way to it. *)
Definition redirect_product (rf : path) (p : path) (n : node) : Prop :=
  (p = rf /\ exists d, n = File d) \/ (n = Dir /\ p `prefix_of` parent rf).

(** The opening of a rendered page up to its refresh tag, and the sentence
    of its body that names the version. *)
Definition refresh_tag (url : string) : string :=
  "<meta http-equiv=" +:+ q +:+ "refresh" +:+ q +:+ " content=" +:+ q +:+ "3; url=" +:+
  url +:+ q +:+ ">".

Definition version_sentence (version_text : string) : string :=
  "<p>The page does not exist in this version (" +:+ version_text +:+ ")".

(** ** The scenarios *)

(** A documentation tree from its entries, nothing printed yet. *)
Definition tree (entries : list (list string * node)) : world :=
  mkWorld (list_to_map entries) [].

Definition text_lines (lines : list string) : string :=
  Text.concat_all (map (fun l => l +:+ nl) lines).

(** A page whose head-closing tag shares its line with the body's opening. *)
Definition page_head_inline : string :=
  text_lines ["<head>"; "</head><body>"; "</body>"].

Definition world_head_inline : world :=
  tree [ (["docs"], Dir); (["docs"; "latest"], Dir);
         (["docs"; "latest"; "a.html"], File page_head_inline) ].

Definition stamped_once : string :=
  text_lines ["<head>"; canonical_tag_of "/latest/a.html" +:+ " </head><body>"; "</body>"].

Definition stamped_twice : string :=
  text_lines ["<head>"; "</body>"] +:+ canonical_tag_of "/latest/a.html" +:+ " ".

(** A page with an old canonical link sharing its line with the title. *)
Definition page_shared_line : string :=
  text_lines ["<head>";
              "<link rel='canonical' href='/27/a.html'><title>Guide</title>";
              "</head>"; "<body></body>"].

Definition world_shared_line : world :=
  tree [ (["docs"], Dir); (["docs"; "latest"], Dir);
         (["docs"; "latest"; "a.html"], File page_shared_line) ].

Definition stamped_shared_line : string :=
  text_lines ["<head>"; canonical_tag_of "/latest/a.html"; "</head>"; "<body></body>"].




(** The previous version holds a page that the latest version lacks. *)
Definition world_removed_page : world :=
  tree [ (["docs"], Dir); (["docs"; "27"], Dir); (["docs"; "latest"], Dir);
         (["docs"; "27"; "page.html"], File (text_lines ["<html></html>"])) ].

(** The same with the redirect page already in place. *)
Definition world_redirect_present : world :=
  tree [ (["docs"], Dir); (["docs"; "27"], Dir); (["docs"; "latest"], Dir);
         (["docs"; "27"; "page.html"], File (text_lines ["<html></html>"]));
         (["docs"; "latest"; "page.html"], File "kept") ].

(** The previous version holds a static redirect to [moved.html]. *)
Definition page_static_redirect : string :=
  text_lines ["<head>";
              "<meta http-equiv=" +:+ q +:+ "refresh" +:+ q +:+ " content=" +:+ q +:+
              "0; url=moved.html" +:+ q +:+ ">";
              canonical_tag_of "moved.html";
              "</head>"].

Definition world_static_redirect : world :=
  tree [ (["docs"], Dir); (["docs"; "27"], Dir); (["docs"; "latest"], Dir);
         (["docs"; "27"; "old.html"], File page_static_redirect) ].

(** Stand-ins for the parser's two answers on [page_static_redirect], and a
    parser that finds nothing. *)
Definition found_meta (text : string) : option (gmap string string) :=
  if Text.contains "http-equiv=" text then
    Some (list_to_map [("http-equiv", "refresh"); ("content", "0; url=moved.html")])
  else None.

Definition found_link (text : string) : option (gmap string string) :=
  if Text.contains "<link rel=" text then
    Some (list_to_map [("rel", "canonical"); ("href", "moved.html")])
  else None.

Definition found_nothing (text : string) : option (gmap string string) := None.

(** The previous version holds a file whose name ends in [html] without
    being an [.html] file. *)
Definition world_xhtml : world :=
  tree [ (["docs"], Dir); (["docs"; "27"], Dir); (["docs"; "latest"], Dir);
         (["docs"; "27"; "notes.xhtml"], File (text_lines ["<html></html>"])) ].

(** *** Resolving a relative URL

    Joining a relative URL to a directory, with the usual removal of dot
    segments: [".."] drops the component before it, and is itself dropped
    at the anchor. *)
Fixpoint remove_dot_segments (stack : list string) (parts : list string) : path :=
  match parts with
  | [] => rev stack
  | c :: rest =>
      if String.eqb c ".." then remove_dot_segments (tl stack) rest
      else if String.eqb c "." then remove_dot_segments stack rest
      else if String.eqb c "" then remove_dot_segments stack rest
      else remove_dot_segments (c :: stack) rest
  end.

Definition resolve_from (dir : path) (url : string) : path :=
  remove_dot_segments (rev dir) (split_sep url "").

(** ** Well-formed documents *)





(** ** Parts of a rendered redirect page *)

(** The text between the brackets of the body's first sentence. *)
Definition version_text (product_name : option string) (current_version : string) : string :=
  match product_name with
  | Some (String c name) => String c name +:+ " " +:+ current_version
  | _ => current_version
  end.

Definition canonical_link_text (url : string) : string :=
  "<link rel=" +:+ q +:+ "canonical" +:+ q +:+ " href=" +:+ q +:+ url +:+ q +:+ " />".

Definition fallback_anchor (url : string) : string :=
  "<a href=" +:+ q +:+ url +:+ q +:+ ">" +:+ url +:+ "</a>".


(** A stand-in for the parser's answer on a canonical link written without
    an [href]. *)
Definition found_link_no_href (text : string) : option (gmap string string) :=
  if Text.contains "<link rel=" text then Some (list_to_map [("rel", "canonical")])
  else None.


(** * Proofs *)

(** ** Text *)

Lemma append_assoc (a b c : string) : (a +:+ b) +:+ c = a +:+ (b +:+ c).
Proof.
  induction a as [|x a IH]; [reflexivity |].
  change (String x ((a +:+ b) +:+ c) = String x (a +:+ b +:+ c)). now rewrite IH.
Qed.

(** Two concatenations of the same pieces, bracketed differently. *)
Ltac same_text := rewrite ?append_assoc; cbv; reflexivity.

Lemma strip_prefix_app (sub post : string) : Text.strip_prefix sub (sub +:+ post) = Some post.
Proof.
  induction sub as [|x sub IH]; [reflexivity |].
  change (String x sub +:+ post) with (String x (sub +:+ post)).
  cbn [Text.strip_prefix]. now rewrite Ascii.eqb_refl.
Qed.

Lemma strip_prefix_some (sub s post : string) :
  Text.strip_prefix sub s = Some post -> s = sub +:+ post.
Proof.
  revert s. induction sub as [|x sub IH]; intros s H.
  - cbn in H. now injection H as ->.
  - destruct s as [|y s]; [discriminate |]. cbn [Text.strip_prefix] in H.
    destruct (Ascii.eqb x y) eqn:E; [|discriminate].
    apply Ascii.eqb_eq in E as ->. rewrite (IH s H). reflexivity.
Qed.

Lemma contains_infix (pre sub post : string) :
  Text.contains sub (pre +:+ sub +:+ post) = true.
Proof.
  induction pre as [|x pre IH].
  - change ("" +:+ sub +:+ post) with (sub +:+ post).
    destruct (sub +:+ post) eqn:E; cbn [Text.contains]; unfold Text.startswith;
      rewrite <- E, strip_prefix_app; reflexivity.
  - change (String x pre +:+ sub +:+ post) with (String x (pre +:+ sub +:+ post)).
    cbn [Text.contains]. rewrite IH. apply orb_true_r.
Qed.

Lemma contains_split (sub s : string) :
  Text.contains sub s = true -> exists pre post, s = pre +:+ sub +:+ post.
Proof.
  induction s as [|c s IH]; cbn [Text.contains]; unfold Text.startswith; intros H.
  - destruct (Text.strip_prefix sub "") as [post|] eqn:E; [|discriminate].
    exists "", post. exact (strip_prefix_some _ _ _ E).
  - destruct (Text.strip_prefix sub (String c s)) as [post|] eqn:E.
    + exists "", post. exact (strip_prefix_some _ _ _ E).
    + cbn in H. destruct (IH H) as (pre & post & ->).
      exists (String c pre), post. reflexivity.
Qed.

(** ** The patterns *)

Section RegexFacts.

Import Re.

Lemma contains_cons_false sub c s :
  Text.contains sub (String c s) = false ->
  Text.strip_prefix sub (String c s) = None /\ Text.contains sub s = false.
Proof.
  cbn [Text.contains]. unfold Text.startswith.
  destruct (Text.strip_prefix sub (String c s)); cbn; [discriminate | auto].
Qed.

Lemma contains_nil_false sub :
  Text.contains sub "" = false -> Text.strip_prefix sub "" = None.
Proof.
  cbn [Text.contains]. unfold Text.startswith.
  destruct (Text.strip_prefix sub ""); cbn; [discriminate | auto].
Qed.

Lemma contains_false_prefix sub s :
  Text.contains sub s = false -> Text.strip_prefix sub s = None.
Proof.
  destruct s; [apply contains_nil_false | intros H; apply (contains_cons_false _ _ _ H)].
Qed.





(** A match somewhere in the text is found by the search. *)
Lemma search_found r s :
  (forall a, m_here r a s <> None) ->
  forall pre a pos, search_from r a pos (pre +:+ s) <> None.
Proof.
  intros Hs. induction pre as [|c pre IH]; intros a pos.
  - change ("" +:+ s) with s. specialize (Hs a).
    destruct s; cbn [search_from]; destruct (m_here r a _); congruence.
  - change (String c pre +:+ s) with (String c (pre +:+ s)). cbn [search_from].
    destruct (m_here r a (String c (pre +:+ s))); [congruence | apply IH].
Qed.

(** The greedy star can always give back what it took. *)
Lemma star_skip p r s :
  (forall a, m_here r a s <> None) -> forall a, m_here (Star p :: r) a s <> None.
Proof.
  intros Hs a. destruct s as [|c s]; [exact (Hs a) |].
  change (m_here (Star p :: r) a (String c s))
    with (if p c then
            match m_here (Star p :: r) false s with
            | Some n => Some (S n)
            | None => m_here r a (String c s)
            end
          else m_here r a (String c s)).
  destruct (p c); [destruct (m_here (Star p :: r) false s); [congruence |] |]; apply Hs.
Qed.

Lemma star_one p r c s :
  p c = true -> (forall a, m_here r a s <> None) ->
  forall a, m_here (Star p :: r) a (String c s) <> None.
Proof.
  intros Hc Hs a.
  change (m_here (Star p :: r) a (String c s))
    with (if p c then
            match m_here (Star p :: r) false s with
            | Some n => Some (S n)
            | None => m_here r a (String c s)
            end
          else m_here r a (String c s)).
  rewrite Hc. pose proof (star_skip p r s Hs false) as H.
  destruct (m_here (Star p :: r) false s); congruence.
Qed.

Lemma lit_found l r s :
  (forall a, m_here r a s <> None) -> forall a, m_here (Lit l :: r) a (l +:+ s) <> None.
Proof.
  intros Hs a. cbn [m_here]. rewrite strip_prefix_app.
  specialize (Hs (a && (String.length l =? 0))).
  destruct (m_here r _ s); congruence.
Qed.

Lemma cls_found p r c s :
  p c = true -> (forall a, m_here r a s <> None) ->
  forall a, m_here (Cls p :: r) a (String c s) <> None.
Proof.
  intros Hc Hs a. cbn [m_here]. rewrite Hc. specialize (Hs false).
  destruct (m_here r false s); congruence.
Qed.

(** The redirect test finds the tag in the form the pages have it. *)
Lemma refresh_opening_found (qc : ascii) (pre post : string) :
  quote qc = true ->
  re_search META_REFRESH (pre +:+ refresh_tag_opening qc +:+ post) <> None.
Proof.
  intros Hq. unfold re_search.
  replace (pre +:+ refresh_tag_opening qc +:+ post)
    with ((pre +:+ "<") +:+
          "meta" +:+ String " "%char ("http-equiv=" +:+ String qc ("refresh" +:+ String qc post)))
    by (unfold refresh_tag_opening; same_text).
  apply search_found. unfold META_REFRESH.
  apply lit_found, star_one; [reflexivity |].
  apply lit_found, cls_found; [exact Hq |].
  apply lit_found, cls_found; [exact Hq |].
  intros a. discriminate.
Qed.

Lemma refresh_text_recognised ln :
  has_refresh_tag_text ln = true -> is_meta_refresh_line ln = true.
Proof.
  unfold has_refresh_tag_text, is_meta_refresh_line. intros H.
  apply orb_true_iff in H as [H|H]; apply contains_split in H as (pre & post & ->).
  - pose proof (refresh_opening_found Text.dq pre post eq_refl) as Hf.
    destruct (re_search META_REFRESH _); congruence.
  - pose proof (refresh_opening_found Text.sq pre post eq_refl) as Hf.
    destruct (re_search META_REFRESH _); congruence.
Qed.


End RegexFacts.

(** ** The scanning loop *)

Section ScanFacts.









End ScanFacts.

(** ** Stamping one file *)

Lemma generate_some_absolute base file dir name :
  is_Some (generate_canonical_url base file dir name) ->
  is_Some (absolute_url base file).
Proof.
  unfold generate_canonical_url, absolute_url. intros [x H].
  destruct (relative_to file dir); [|discriminate].
  destruct (relative_to _ base); [|discriminate].
  destruct (relative_to file base); [eauto | discriminate].
Qed.

(** The call up to the point where the document has been read. *)
Lemma create_canonical_tag_read base cdp file version abs (w : world) data :
  node_at (fs w) file = Some (File data) ->
  is_Some (generate_canonical_url base file cdp version) ->
  exists url,
    create_canonical_tag base cdp file version abs w =
    match stamp_lines (canonical_tag_of url) (document_lines data) with
    | RedirectPage => ret tt
    | MissingHead => print (missing_head_message file)
    | OutOfRange => raise IndexError
    | Stamped new_lines => write_text file (Text.concat_all new_lines)
    end w.
Proof.
  intros Hf Hg. destruct (generate_some_absolute _ _ _ _ Hg) as [u Hu].
  destruct Hg as [[vf url] Hg].
  exists (if abs then u else url).
  unfold create_canonical_tag, bind, or_raise, ret, read_text, document_lines.
  rewrite Hg. destruct abs; cbn; [rewrite Hu; cbn |]; now rewrite Hf.
Qed.




(** ** Making directories and writing a file *)

Section FileSystemFacts.

Lemma node_at_none f p : node_at f p = None -> p <> [] /\ f !! p = None.
Proof. destruct p; [discriminate | cbn; auto]. Qed.

Lemma node_at_lookup f p : p <> [] -> node_at f p = f !! p.
Proof. now destruct p. Qed.

Lemma only_created_refl created w : only_created created w w.
Proof. intros p H. now destruct H. Qed.

Lemma only_created_weaken (c1 c2 : path -> node -> Prop) w w' :
  (forall p n, c1 p n -> c2 p n) -> only_created c1 w w' -> only_created c2 w w'.
Proof.
  intros Hc H p Hp. destruct (H p Hp) as (Hn & n & Hl & Hcr). eauto.
Qed.

(** One insertion at an absent path, after earlier creations. *)
Lemma only_created_insert (created : path -> node -> Prop) w w1 p n out :
  only_created created w w1 ->
  fs w1 !! p = None ->
  created p n ->
  only_created created w (mkWorld (<[p := n]> (fs w1)) out).
Proof.
  intros H Hp Hc q Hq. cbn in Hq |- *.
  destruct (decide (p = q)) as [<-|Hpq].
  - rewrite lookup_insert_eq in Hq |- *.
    destruct (decide (fs w1 !! p = fs w !! p)) as [E|E].
    + rewrite <- E, Hp. eauto.
    + destruct (H p E) as (_ & m & Hm & _). congruence.
  - rewrite lookup_insert_ne in Hq |- * by done. now apply H.
Qed.

Lemma bind_run {A B} (m : M A) (k : A -> M B) (w : world) :
  bind m k w =
  match m w with
  | (Ok a, w') => k a w'
  | (Raise e, w') => (Raise e, w')
  | (OutOfFuel, w') => (OutOfFuel, w')
  end.
Proof. reflexivity. Qed.

(** [mkdir] under [makedirs]' handler: nothing, or one new directory. *)
Lemma mkdir_exist_ok_cases name (w : world) :
  (snd (mkdir_exist_ok name w) = w /\
   (fst (mkdir_exist_ok name w) = Ok tt -> node_at (fs w) name = Some Dir) /\
   (node_at (fs w) name = Some Dir -> fst (mkdir_exist_ok name w) = Ok tt) /\
   (node_at (fs w) name = None -> node_at (fs w) (parent name) <> Some Dir)) \/
  (fs w !! name = None /\ name <> [] /\ node_at (fs w) (parent name) = Some Dir /\
   mkdir_exist_ok name w = (Ok tt, mkWorld (<[name := Dir]> (fs w)) (stdout w))).
Proof.
  unfold mkdir_exist_ok, mkdir.
  destruct (node_at (fs w) name) as [n|] eqn:E.
  - left. rewrite E. destruct n; cbn; repeat split; auto; discriminate.
  - destruct (node_at_none _ _ E) as [Hne Hl].
    destruct (node_at (fs w) (parent name)) as [[d|]|] eqn:Ep.
    + left. rewrite E. cbn. repeat split; auto; discriminate.
    + right. auto.
    + left. rewrite E. cbn. repeat split; auto; discriminate.
Qed.

Lemma parent_rev_cons x (rhead : list string) : parent (rev (x :: rhead)) = rev rhead.
Proof. unfold parent. change (rev (x :: rhead)) with (rev rhead ++ [x]). apply removelast_last. Qed.

Lemma rev_cons_ne_nil x (rhead : list string) : rev (x :: rhead) <> [].
Proof. change (rev (x :: rhead)) with (rev rhead ++ [x]). now destruct (rev rhead). Qed.

Lemma prefix_rev_cons (p : path) x (rhead : list string) :
  p `prefix_of` rev rhead -> p `prefix_of` rev (x :: rhead).
Proof.
  intros [k Hk]. change (rev (x :: rhead)) with (rev rhead ++ [x]).
  exists (k ++ [x]). now rewrite Hk, app_assoc.
Qed.

Lemma prefix_rev_cons_ne (p : path) x (rhead : list string) :
  p `prefix_of` rev rhead -> p <> rev (x :: rhead).
Proof.
  intros [k Hk] ->. change (rev (x :: rhead)) with (rev rhead ++ [x]) in Hk.
  apply (f_equal (@List.length string)) in Hk.
  rewrite !length_app in Hk. cbn in Hk. lia.
Qed.

Lemma make_head_frame rhead (rec : M unit) (w : world) :
  (forall w0, stdout (snd (rec w0)) = stdout w0 /\
              only_created (made_dir (rev rhead)) w0 (snd (rec w0))) ->
  stdout (snd (make_head rhead rec w)) = stdout w /\
  only_created (made_dir (rev rhead)) w (snd (make_head rhead rec w)).
Proof.
  intros Hrec. unfold make_head.
  destruct rhead as [|y rh]; [split; [reflexivity | apply only_created_refl] |].
  rewrite bind_run. unfold exists_.
  destruct (bool_decide _); [split; [reflexivity | apply only_created_refl] |].
  unfold pass_file_exists. specialize (Hrec w).
  destruct (rec w) as [[a|e|] w1]; cbn [snd] in *; try destruct e; exact Hrec.
Qed.

(** Whatever its outcome, [makedirs] only adds directories on the way. *)
Lemma makedirs_rev_frame rp : forall w,
  stdout (snd (makedirs_rev rp w)) = stdout w /\
  only_created (made_dir (rev rp)) w (snd (makedirs_rev rp w)).
Proof.
  induction rp as [|x rhead IH]; intros w.
  - cbn. split; [reflexivity | apply only_created_refl].
  - cbn [makedirs_rev]. rewrite bind_run.
    destruct (make_head_frame rhead (makedirs_rev rhead) w IH) as [Ho1 Hc1].
    assert (Hc1' : only_created (made_dir (rev (x :: rhead))) w
                     (snd (make_head rhead (makedirs_rev rhead) w))).
    { eapply only_created_weaken; [|exact Hc1].
      intros p n [-> Hp]. split; [reflexivity | now apply prefix_rev_cons]. }
    destruct (make_head rhead (makedirs_rev rhead) w) as [[a|e|] w1];
      cbn [snd] in *; [|split; auto ..].
    destruct (mkdir_exist_ok_cases (rev (x :: rhead)) w1) as [[Hs _]|(Hl & Hne & _ & ->)].
    + rewrite Hs. auto.
    + cbn [snd stdout]. split; [exact Ho1 |].
      apply only_created_insert; auto.
      split; [reflexivity | done].
Qed.

(** With no regular file in the way, [makedirs] succeeds and the target
    is a directory afterwards. *)
Lemma makedirs_rev_ok rp : forall w,
  no_file_above (fs w) rp = true ->
  fst (makedirs_rev rp w) = Ok tt /\
  node_at (fs (snd (makedirs_rev rp w))) (rev rp) = Some Dir.
Proof.
  induction rp as [|x rhead IH]; intros w Hn.
  - cbn. auto.
  - cbn [no_file_above] in Hn. apply andb_true_iff in Hn as [Hx Hn].
    destruct (makedirs_rev_frame rhead w) as [_ Hfr].
    specialize (IH w Hn). destruct IH as [IHr IHd].
    cbn [makedirs_rev]. rewrite bind_run.
    assert (H1 : fst (make_head rhead (makedirs_rev rhead) w) = Ok tt /\
                 node_at (fs (snd (make_head rhead (makedirs_rev rhead) w))) (rev rhead)
                 = Some Dir /\
                 fs (snd (make_head rhead (makedirs_rev rhead) w)) !! rev (x :: rhead)
                 = fs w !! rev (x :: rhead)).
    { unfold make_head. destruct rhead as [|y rh]; [cbn; auto |].
      rewrite bind_run. unfold exists_.
      destruct (bool_decide (is_Some (node_at (fs w) (rev (y :: rh))))) eqn:Eb.
      - cbn [fst snd]. split; [reflexivity | split; [| reflexivity]].
        apply bool_decide_eq_true in Eb as [n En]. unfold ret. cbn [snd]. rewrite En.
        cbn [no_file_above] in Hn. apply andb_true_iff in Hn as [Hy _].
        rewrite En in Hy. now destruct n.
      - unfold pass_file_exists.
        destruct (makedirs_rev (y :: rh) w) as [[a|e|] w1] eqn:Em; cbn [fst snd] in *;
          try discriminate.
        destruct a. split; [reflexivity | split; [exact IHd |]].
        destruct (decide (fs w1 !! rev (x :: y :: rh) = fs w !! rev (x :: y :: rh)))
          as [E|E]; [exact E |].
        destruct (Hfr _ E) as (_ & n & _ & _ & Hp).
        now apply (prefix_rev_cons_ne _ x) in Hp. }
    destruct H1 as (Hr1 & Hd1 & Hsame).
    destruct (make_head rhead (makedirs_rev rhead) w) as [[[]|e|] w1];
      cbn [fst snd] in *; try discriminate.
    assert (Hnf : forall d, node_at (fs w1) (rev (x :: rhead)) <> Some (File d)).
    { intros d Hd. rewrite node_at_lookup in Hd, Hx by apply rev_cons_ne_nil.
      rewrite Hsame in Hd. now rewrite Hd in Hx. }
    destruct (mkdir_exist_ok_cases (rev (x :: rhead)) w1)
      as [(Hs & _ & Hok & Hno)|(Hl & Hne & Hp & ->)].
    + rewrite parent_rev_cons, Hd1 in Hno.
      destruct (node_at (fs w1) (rev (x :: rhead))) as [[d|]|] eqn:E.
      * now destruct (Hnf d).
      * rewrite Hs, E. auto.
      * now destruct Hno.
    + cbn [fst snd fs]. split; [reflexivity |].
      rewrite node_at_lookup by done. apply lookup_insert_eq.
Qed.

End FileSystemFacts.

(** ** Redirect synthesis *)

Section RedirectFacts.

Variable fm fl : string -> option (gmap string string).

Lemma inherited_redirect_url_world text url (w : world) :
  snd (inherited_redirect_url fm fl text url w) = w.
Proof.
  unfold inherited_redirect_url.
  destruct (fm text) as [m|]; [|reflexivity].
  destruct (fl text) as [l|]; [|reflexivity].
  rewrite bind_run. destruct (l !! "href"); [|reflexivity]. cbn.
  rewrite bind_run. destruct (m !! "content"); [|reflexivity]. cbn.
  now destruct (Text.contains _ _).
Qed.

Lemma inherited_redirect_url_found text url (w : world) m l href content :
  fm text = Some m -> fl text = Some l ->
  l !! "href" = Some href -> m !! "content" = Some content ->
  Text.contains href content = true ->
  inherited_redirect_url fm fl text url w = (Ok href, w).
Proof.
  intros Hm Hl Hh Hc Hin. unfold inherited_redirect_url.
  rewrite Hm, Hl, bind_run, Hh. cbn. rewrite bind_run, Hc. cbn. now rewrite Hin.
Qed.

Lemma inherited_redirect_url_plain text url (w : world) :
  fm text = None -> inherited_redirect_url fm fl text url w = (Ok url, w).
Proof. intros Hm. unfold inherited_redirect_url. now rewrite Hm. Qed.

Lemma generate_candidate base prev dir cur abs rf url0 :
  generate_canonical_url base prev dir cur = Some (rf, url0) ->
  exists cand, candidate_url base prev abs url0 = Some cand.
Proof.
  intros Hg. unfold candidate_url. destruct abs; [|eauto].
  destruct (generate_some_absolute base prev dir cur) as [u Hu]; [rewrite Hg |]; eauto.
Qed.

(** The call once its two URLs are computed. *)
Lemma redirect_removed_file_run base prev cur prevd ver abs prod (w : world) rf url0 cand :
  generate_canonical_url base prev (base ++ parse_path prevd) cur = Some (rf, url0) ->
  candidate_url base prev abs url0 = Some cand ->
  redirect_removed_file fm fl base prev cur prevd ver abs prod w =
  if bool_decide (is_Some (node_at (fs w) rf)) then (Ok tt, w)
  else
    (text <- read_text prev ;;
     redirect_url <- inherited_redirect_url fm fl text cand ;;
     makedirs (parent rf) ;;
     write_text rf (redirect_file_contents prod ver redirect_url)) w.
Proof.
  intros Hg Hc. unfold redirect_removed_file. rewrite Hg. unfold or_raise at 1.
  rewrite bind_run. unfold ret at 1. cbn [fst snd].
  unfold candidate_url in Hc. rewrite bind_run.
  assert (Hu : (if abs then or_raise ValueError (absolute_url base prev) else ret url0) w
               = (Ok cand, w)).
  { destruct abs; [rewrite Hc | injection Hc as <-]; reflexivity. }
  rewrite Hu, bind_run. unfold exists_.
  now destruct (bool_decide (is_Some (node_at (fs w) rf))).
Qed.

(** With the destination taken, the call is a no-op. *)
Lemma redirect_existing_noop base prev cur prevd ver abs prod (w : world) rf url0 :
  generate_canonical_url base prev (base ++ parse_path prevd) cur = Some (rf, url0) ->
  is_Some (node_at (fs w) rf) ->
  redirect_removed_file fm fl base prev cur prevd ver abs prod w = (Ok tt, w).
Proof.
  intros Hg Hp. destruct (generate_candidate _ _ _ _ abs _ _ Hg) as [cand Hc].
  rewrite (redirect_removed_file_run _ _ _ _ _ _ _ _ _ _ _ Hg Hc).
  now rewrite bool_decide_eq_true_2.
Qed.

Lemma not_prefix_of_parent (rf : path) : rf <> [] -> ~ rf `prefix_of` parent rf.
Proof.
  intros Hne [k Hk]. apply (f_equal (@List.length string)) in Hk.
  unfold parent in Hk. rewrite length_app in Hk.
  destruct (exists_last Hne) as (l & x & ->).
  rewrite removelast_last, length_app in Hk. cbn in Hk. lia.
Qed.

(** The part of the call that creates the page. *)
Lemma redirect_write_frame rf contents (w : world) :
  node_at (fs w) rf = None ->
  let w' := snd ((makedirs (parent rf) ;; write_text rf contents) w) in
  stdout w' = stdout w /\ only_created (redirect_product rf) w w'.
Proof.
  intros Hn. destruct (node_at_none _ _ Hn) as [Hne Hl]. cbn zeta.
  rewrite bind_run. unfold makedirs.
  destruct (makedirs_rev_frame (rev (parent rf)) w) as [Ho Hc].
  rewrite rev_involutive in Hc.
  assert (Hc' : only_created (redirect_product rf) w (snd (makedirs_rev (rev (parent rf)) w))).
  { eapply only_created_weaken; [|exact Hc]. intros p n [-> Hp]. right. auto. }
  destruct (makedirs_rev (rev (parent rf)) w) as [[a|e|] w1]; cbn [snd] in *; auto.
  unfold write_text.
  destruct (node_at (fs w1) rf) as [[d|]|] eqn:E1; auto;
    destruct (node_at (fs w1) (parent rf)) as [[d'|]|]; cbn [snd stdout]; auto;
    split; auto.
  - exfalso. rewrite node_at_lookup in E1 by done.
    destruct (decide (fs w1 !! rf = fs w !! rf)) as [E|E];
      [rewrite E, Hl in E1; discriminate |].
    destruct (Hc _ E) as (_ & n & _ & _ & Hp). now apply not_prefix_of_parent in Hp.
  - rewrite node_at_lookup in E1 by done.
    apply only_created_insert; auto. left. eauto.
Qed.

Lemma redirect_write_ok rf contents (w : world) :
  node_at (fs w) rf = None ->
  no_file_above (fs w) (rev (parent rf)) = true ->
  exists w',
    (makedirs (parent rf) ;; write_text rf contents) w = (Ok tt, w') /\
    fs w' !! rf = Some (File contents).
Proof.
  intros Hn Hd. destruct (node_at_none _ _ Hn) as [Hne Hl].
  rewrite bind_run. unfold makedirs.
  destruct (makedirs_rev_ok _ w Hd) as [Hr Hdir].
  destruct (makedirs_rev_frame (rev (parent rf)) w) as [_ Hc].
  rewrite rev_involutive in Hc, Hdir.
  destruct (makedirs_rev (rev (parent rf)) w) as [[[]|e|] w1]; cbn [fst snd] in *;
    try discriminate.
  assert (E1 : node_at (fs w1) rf = None).
  { rewrite node_at_lookup by done.
    destruct (decide (fs w1 !! rf = fs w !! rf)) as [E|E]; [now rewrite E |].
    destruct (Hc _ E) as (_ & n & _ & _ & Hp). now apply not_prefix_of_parent in Hp. }
  unfold write_text. rewrite E1, Hdir. eexists. split; [reflexivity |].
  cbn. apply lookup_insert_eq.
Qed.

(** The page is created when the destination is free, the previous page
    can be read and its inherited target is [url]. *)
Lemma redirect_created base prev cur prevd ver abs prod (w : world) rf url0 cand data url :
  generate_canonical_url base prev (base ++ parse_path prevd) cur = Some (rf, url0) ->
  candidate_url base prev abs url0 = Some cand ->
  node_at (fs w) rf = None ->
  node_at (fs w) prev = Some (File data) ->
  no_file_above (fs w) (rev (parent rf)) = true ->
  inherited_redirect_url fm fl (Text.universal_newlines data) cand w = (Ok url, w) ->
  exists w',
    redirect_removed_file fm fl base prev cur prevd ver abs prod w = (Ok tt, w') /\
    fs w' !! rf = Some (File (redirect_file_contents prod ver url)).
Proof.
  intros Hg Hc Hn Hp Hd Hi.
  rewrite (redirect_removed_file_run _ _ _ _ _ _ _ _ _ _ _ Hg Hc).
  rewrite bool_decide_eq_false_2 by (rewrite Hn; now intros [? ?]).
  rewrite bind_run. unfold read_text. rewrite Hp, bind_run, Hi.
  now apply redirect_write_ok.
Qed.

(** Every effect of the call on the file system. *)
Lemma redirect_removed_file_effect base prev cur prevd ver abs prod (w : world) :
  let w' := snd (redirect_removed_file fm fl base prev cur prevd ver abs prod w) in
  w' = w \/
  exists rf url0 data,
    generate_canonical_url base prev (base ++ parse_path prevd) cur = Some (rf, url0) /\
    node_at (fs w) prev = Some (File data) /\
    stdout w' = stdout w /\ only_created (redirect_product rf) w w'.
Proof.
  cbn zeta.
  destruct (generate_canonical_url base prev (base ++ parse_path prevd) cur)
    as [[rf url0]|] eqn:Hg.
  2: { left. unfold redirect_removed_file. now rewrite Hg. }
  destruct (generate_candidate _ _ _ _ abs _ _ Hg) as [cand Hc].
  rewrite (redirect_removed_file_run _ _ _ _ _ _ _ _ _ _ _ Hg Hc).
  destruct (bool_decide (is_Some (node_at (fs w) rf))) eqn:Eb; [now left |].
  apply bool_decide_eq_false in Eb.
  assert (Hn : node_at (fs w) rf = None).
  { destruct (node_at (fs w) rf); [destruct Eb; eauto | reflexivity]. }
  rewrite bind_run. unfold read_text.
  destruct (node_at (fs w) prev) as [[data|]|] eqn:Hp; [|now left ..].
  rewrite bind_run.
  pose proof (inherited_redirect_url_world (Text.universal_newlines data) cand w) as Hw.
  destruct (inherited_redirect_url fm fl (Text.universal_newlines data) cand w)
    as [[url|e|] w1]; cbn [snd] in Hw; subst w1; [|now left ..].
  right. exists rf, url0, data. split; [reflexivity | split; [reflexivity |]].
  now apply redirect_write_frame.
Qed.

End RedirectFacts.


(** ** The rendered page *)

Section RenderFacts.

(** The page as one concatenation around its four copies of the URL. *)
Lemma render_redirect_shape (url vt : string) :
  render_redirect url vt =
  nth 0 REMOVED_REDIRECT_TEMPLATE "" +:+ url +:+
  nth 1 REMOVED_REDIRECT_TEMPLATE "" +:+ url +:+
  nth 2 REMOVED_REDIRECT_TEMPLATE "" +:+ vt +:+
  nth 3 REMOVED_REDIRECT_TEMPLATE "" +:+ url +:+
  nth 4 REMOVED_REDIRECT_TEMPLATE "" +:+ url +:+
  nth 5 REMOVED_REDIRECT_TEMPLATE "".
Proof.
  unfold render_redirect, REMOVED_REDIRECT_TEMPLATE.
  cbn [firstn skipn Text.join nth]. same_text.
Qed.

(** The rendered page holds a refresh tag whose URL is the target. *)
Lemma render_contains_refresh (url vt : string) :
  Text.contains (refresh_tag url) (render_redirect url vt) = true.
Proof.
  rewrite render_redirect_shape.
  set (rest := nth 2 REMOVED_REDIRECT_TEMPLATE "" +:+ _).
  set (pre := "<!DOCTYPE html>" +:+ nl +:+
              "<html lang=" +:+ q +:+ "en" +:+ q +:+ ">" +:+ nl +:+
              "  <head>" +:+ nl +:+
              "    <meta charset=" +:+ q +:+ "UTF-8" +:+ q +:+ ">" +:+ nl +:+ "    ").
  set (post := nl +:+ "    <link rel=" +:+ q +:+ "canonical" +:+ q +:+ " href=" +:+ q +:+
               url +:+ rest).
  replace (nth 0 REMOVED_REDIRECT_TEMPLATE "" +:+ url +:+
           nth 1 REMOVED_REDIRECT_TEMPLATE "" +:+ url +:+ rest)
    with (pre +:+ refresh_tag url +:+ post).
  - apply contains_infix.
  - subst pre post rest. unfold refresh_tag, REMOVED_REDIRECT_TEMPLATE. cbn [nth].
    same_text.
Qed.

(** ... and the sentence of its body that names the version text. *)
Lemma render_contains_version (url vt : string) :
  Text.contains (version_sentence vt) (render_redirect url vt) = true.
Proof.
  rewrite render_redirect_shape.
  set (post := nth 3 REMOVED_REDIRECT_TEMPLATE "" +:+ _).
  set (pre := nth 0 REMOVED_REDIRECT_TEMPLATE "" +:+ url +:+
              nth 1 REMOVED_REDIRECT_TEMPLATE "" +:+ url +:+
              q +:+ " />" +:+ nl +:+ "  </head>" +:+ nl +:+ "  <body>" +:+ nl +:+ "    ").
  set (post' := Text.drop 1 (nth 3 REMOVED_REDIRECT_TEMPLATE "") +:+ url +:+
                nth 4 REMOVED_REDIRECT_TEMPLATE "" +:+ url +:+
                nth 5 REMOVED_REDIRECT_TEMPLATE "").
  replace (nth 0 REMOVED_REDIRECT_TEMPLATE "" +:+ url +:+
           nth 1 REMOVED_REDIRECT_TEMPLATE "" +:+ url +:+
           nth 2 REMOVED_REDIRECT_TEMPLATE "" +:+ vt +:+ post)
    with (pre +:+ version_sentence vt +:+ post').
  - apply contains_infix.
  - subst pre post post'. unfold version_sentence, REMOVED_REDIRECT_TEMPLATE. cbn [nth].
    same_text.
Qed.

Lemma redirect_contains_refresh prod ver url :
  Text.contains (refresh_tag url) (redirect_file_contents prod ver url) = true.
Proof.
  unfold redirect_file_contents.
  destruct prod as [[|c name]|]; apply render_contains_refresh.
Qed.

End RenderFacts.

Section RedirectTheorems.

Variable fm fl : string -> option (gmap string string).

(** C3. Redirect synthesis is write-once. When something already exists at
    the computed destination, [redirect_removed_file] returns normally and
    leaves the world (files and output) exactly as it was, whatever the
    current version, the product name and the addressing mode are; so after
    a run that created the page, a further run with another version changes
    nothing. *)
Theorem redirect_write_once :
  forall base prev cur prevd (w : world) rf url0,
    generate_canonical_url base prev (base ++ parse_path prevd) cur = Some (rf, url0) ->
    (is_Some (node_at (fs w) rf) ->
     forall ver abs prod,
       redirect_removed_file fm fl base prev cur prevd ver abs prod w = (Ok tt, w)) /\
    (forall ver abs prod w1,
       redirect_removed_file fm fl base prev cur prevd ver abs prod w = (Ok tt, w1) ->
       forall ver' abs' prod',
         redirect_removed_file fm fl base prev cur prevd ver' abs' prod' w1 = (Ok tt, w1)).
Proof.
  intros base prev cur prevd w rf url0 Hg. split.
  - intros Hp ver abs prod. now apply (redirect_existing_noop fm fl) with rf url0.
  - intros ver abs prod w1 Hrun ver' abs' prod'.
    apply (redirect_existing_noop fm fl) with rf url0; [exact Hg |].
    destruct (node_at (fs w) rf) as [n|] eqn:Hn.
    + rewrite (redirect_existing_noop fm fl _ _ _ _ _ _ _ _ _ _ Hg) in Hrun
        by (rewrite Hn; eauto).
      injection Hrun as <-. rewrite Hn. eauto.
    + destruct (node_at_none _ _ Hn) as [Hne _].
      destruct (generate_candidate _ _ _ _ abs _ _ Hg) as [cand Hc].
      rewrite (redirect_removed_file_run fm fl _ _ _ _ _ _ _ _ _ _ _ Hg Hc) in Hrun.
      rewrite bool_decide_eq_false_2 in Hrun by (rewrite Hn; now intros [? ?]).
      rewrite bind_run in Hrun. unfold read_text in Hrun.
      destruct (node_at (fs w) prev) as [[data|]|]; try discriminate.
      rewrite bind_run in Hrun.
      pose proof (inherited_redirect_url_world fm fl (Text.universal_newlines data) cand w) as Hw.
      destruct (inherited_redirect_url fm fl (Text.universal_newlines data) cand w)
        as [[url|e|] w0]; cbn [snd] in Hw; subst w0; try discriminate.
      rewrite bind_run in Hrun.
      destruct (makedirs (parent rf) w) as [[[]|e|] w2]; try discriminate.
      unfold write_text in Hrun.
      destruct (node_at (fs w2) rf) as [[d|]|];
        destruct (node_at (fs w2) (parent rf)) as [[d'|]|]; try discriminate;
        injection Hrun as <-; rewrite node_at_lookup by done; cbn;
        rewrite lookup_insert_eq; eauto.
Qed.

(** C4. Inherited static redirect. When the previous page carries a
    meta-refresh tag and a canonical link whose href occurs in the refresh
    tag's content attribute, the page synthesised for it (destination free,
    no regular file among the directories on the way) is rendered with that
    href as its target in place of the computed cross-version URL: the href
    is the URL of its refresh tag. *)
Theorem inherited_static_redirect :
  forall base prev cur prevd ver abs prod (w : world) rf url0 data meta link href content,
    generate_canonical_url base prev (base ++ parse_path prevd) cur = Some (rf, url0) ->
    node_at (fs w) rf = None ->
    node_at (fs w) prev = Some (File data) ->
    no_file_above (fs w) (rev (parent rf)) = true ->
    fm (Text.universal_newlines data) = Some meta ->
    fl (Text.universal_newlines data) = Some link ->
    link !! "href" = Some href ->
    meta !! "content" = Some content ->
    Text.contains href content = true ->
    exists w',
      redirect_removed_file fm fl base prev cur prevd ver abs prod w = (Ok tt, w') /\
      fs w' !! rf = Some (File (redirect_file_contents prod ver href)) /\
      Text.contains (refresh_tag href) (redirect_file_contents prod ver href) = true.
Proof.
  intros base prev cur prevd ver abs prod w rf url0 data meta link href content
    Hg Hn Hp Hd Hm Hl Hh Hc Hin.
  destruct (generate_candidate _ _ _ _ abs _ _ Hg) as [cand Hcand].
  destruct (redirect_created fm fl base prev cur prevd ver abs prod w rf url0 cand data href)
    as (w' & Hrun & Hfile); auto.
  - now apply inherited_redirect_url_found with meta link content.
  - exists w'. split; [exact Hrun | split; [exact Hfile |]].
    apply redirect_contains_refresh.
Qed.

End RedirectTheorems.

(** ** Scenarios on concrete trees *)

(** C5. Two-segment rename. With base [docs], the previous page
    [docs/27/page.html] (an ordinary page: the parser finds no meta-refresh
    tag in it), nothing at [docs/latest/page.html], no regular file in the
    place of [docs] or [docs/latest], current version 28, absolute
    addressing and no product name, the synthesiser returns normally and
    [docs/latest/page.html] is the rendered page: it holds a refresh tag
    to [/27/page.html] and its body names version 28. *)
Theorem two_segment_rename :
  forall (fm fl : string -> option (gmap string string)) (w : world) data,
    node_at (fs w) ["docs"; "27"; "page.html"] = Some (File data) ->
    node_at (fs w) ["docs"; "latest"; "page.html"] = None ->
    no_file_above (fs w) (rev ["docs"; "latest"]) = true ->
    fm (Text.universal_newlines data) = None ->
    exists w',
      redirect_removed_file fm fl ["docs"] ["docs"; "27"; "page.html"]
        "latest" "27" "28" true None w = (Ok tt, w') /\
      fs w' !! ["docs"; "latest"; "page.html"] =
        Some (File (redirect_file_contents None "28" "/27/page.html")) /\
      Text.contains (refresh_tag "/27/page.html")
        (redirect_file_contents None "28" "/27/page.html") = true /\
      Text.contains (version_sentence "28")
        (redirect_file_contents None "28" "/27/page.html") = true.
Proof.
  intros fm fl w data Hp Hn Hd Hm.
  destruct (redirect_created fm fl ["docs"] ["docs"; "27"; "page.html"] "latest" "27" "28"
              true None w ["docs"; "latest"; "page.html"] "../../27/page.html"
              "/27/page.html" data "/27/page.html")
    as (w' & Hrun & Hfile); auto.
  - now apply inherited_redirect_url_plain.
  - exists w'. repeat split; auto.
Qed.

(** C10. The frame of redirect synthesis. Whatever the call does and however
    it ends, the previous-version page it reads is the same afterwards,
    nothing is printed, and a path whose node differs afterwards was absent
    before and is either the destination, now a regular file, or a
    directory on the way to the destination. *)
Theorem redirect_frame :
  forall (fm fl : string -> option (gmap string string))
         base prev cur prevd ver abs prod (w : world),
    let w' := snd (redirect_removed_file fm fl base prev cur prevd ver abs prod w) in
    fs w' !! prev = fs w !! prev /\
    stdout w' = stdout w /\
    forall p, fs w' !! p <> fs w !! p ->
      fs w !! p = None /\
      exists rf url0,
        generate_canonical_url base prev (base ++ parse_path prevd) cur = Some (rf, url0) /\
        ((p = rf /\ exists d, fs w' !! p = Some (File d)) \/
         (p `prefix_of` parent rf /\ fs w' !! p = Some Dir)).
Proof.
  intros fm fl base prev cur prevd ver abs prod w w'.
  destruct (redirect_removed_file_effect fm fl base prev cur prevd ver abs prod w)
    as [Hw|(rf & url0 & data & Hg & Hp & Ho & Hc)]; fold w' in Hw || fold w' in Ho, Hc.
  - rewrite Hw. split; [reflexivity | split; [reflexivity |]].
    intros p Hne. now destruct Hne.
  - split; [|split; [exact Ho |]].
    + destruct (decide (fs w' !! prev = fs w !! prev)) as [E|E]; [exact E |].
      destruct (Hc _ E) as (Hnone & _).
      destruct prev as [|x prev]; [discriminate |]. cbn in Hp. rewrite Hp in Hnone.
      discriminate.
    + intros p Hne. destruct (Hc _ Hne) as (Hnone & n & Hl & Hprod).
      split; [exact Hnone |]. exists rf, url0. split; [exact Hg |].
      destruct Hprod as [[-> [d ->]]|[-> Hpre]]; [left | right]; eauto.
Qed.

(** C1 on [world_head_inline]: the first stamping pass puts the tag in front
    of the head-closing tag; the second pass takes the line that now begins
    with the tag for a line that is nothing but a canonical tag, deletes it
    with the head-closing tag on it, and splices a new tag into the line
    that follows.  The file after two passes is not the file after one. *)
Theorem stamping_twice_differs :
  exists w1 w2,
    canonical_tag_walker 2 ["docs"] ["docs"; "latest"] "latest" true world_head_inline
      = (Ok tt, w1) /\
    canonical_tag_walker 2 ["docs"] ["docs"; "latest"] "latest" true w1 = (Ok tt, w2) /\
    fs w1 !! ["docs"; "latest"; "a.html"] = Some (File stamped_once) /\
    fs w2 !! ["docs"; "latest"; "a.html"] = Some (File stamped_twice) /\
    stamped_once <> stamped_twice.
Proof.
  eexists. eexists. split; [vm_compute; reflexivity |].
  split; [vm_compute; reflexivity |].
  split; [vm_compute; reflexivity |].
  split; [vm_compute; reflexivity |].
  vm_compute. discriminate.
Qed.

(** C2 on [world_shared_line]: the line that begins with the old canonical
    link and goes on with the title is deleted whole; exactly one canonical
    tag is in the file afterwards, but the title that shared the line is
    gone. *)
Theorem shared_line_content_lost :
  exists w1,
    create_canonical_tag ["docs"] ["docs"; "latest"] ["docs"; "latest"; "a.html"]
      "latest" true world_shared_line = (Ok tt, w1) /\
    fs w1 !! ["docs"; "latest"; "a.html"] = Some (File stamped_shared_line) /\
    Text.contains "<title>Guide</title>" page_shared_line = true /\
    Text.contains "<title>Guide</title>" stamped_shared_line = false.
Proof.
  eexists. split; [vm_compute; reflexivity |].
  repeat split; vm_compute; reflexivity.
Qed.

(** C6 on a base that is not the root: for [docs/27/page.html] under the
    base [srv/docs], the sibling is [srv/docs/latest/page.html] and the URL
    has one [..] for each component of the sibling below the base, the file
    name included.  Joined to the sibling's directory it leaves the base and
    names [srv/27/page.html]; it is the sibling's own path that it leads
    back from. *)
Theorem relative_url_overshoots :
  generate_canonical_url ["srv"; "docs"] ["srv"; "docs"; "27"; "page.html"]
    ["srv"; "docs"; "27"] "latest"
  = Some (["srv"; "docs"; "latest"; "page.html"], "../../27/page.html") /\
  resolve_from (parent ["srv"; "docs"; "latest"; "page.html"]) "../../27/page.html"
  = ["srv"; "27"; "page.html"] /\
  resolve_from (parent ["srv"; "docs"; "latest"; "page.html"]) "../../27/page.html"
  <> ["srv"; "docs"; "27"; "page.html"] /\
  resolve_from ["srv"; "docs"; "latest"; "page.html"] "../../27/page.html"
  = ["srv"; "docs"; "27"; "page.html"].
Proof. repeat split; try (vm_compute; reflexivity). vm_compute. discriminate. Qed.

(** C9 on [world_xhtml]: [notes.xhtml] has no [.html] extension, the
    canonical walker passes it by, but the redirect walker, which tests the
    ending [html] without the dot, runs the synthesiser on it and creates
    [docs/latest/notes.xhtml]. *)
Theorem redirect_walker_visits_xhtml :
  forall (fm fl : string -> option (gmap string string)),
    fm (text_lines ["<html></html>"]) = None ->
    Text.endswith "notes.xhtml" ".html" = false /\
    canonical_tag_walker 2 ["docs"] ["docs"; "27"] "27" true world_xhtml
      = (Ok tt, world_xhtml) /\
    exists w1,
      redirect_removed_walker fm fl 2 ["docs"] "latest" "27" "28" true None world_xhtml
        = (Ok tt, w1) /\
      fs w1 !! ["docs"; "latest"; "notes.xhtml"] =
        Some (File (redirect_file_contents None "28" "/27/notes.xhtml")).
Proof.
  intros fm fl Hm. split; [vm_compute; reflexivity |].
  split; [vm_compute; reflexivity |].
  destruct (redirect_created fm fl ["docs"] ["docs"; "27"; "notes.xhtml"] "latest" "27" "28"
              true None world_xhtml ["docs"; "latest"; "notes.xhtml"] "../../27/notes.xhtml"
              "/27/notes.xhtml" (text_lines ["<html></html>"]) "/27/notes.xhtml")
    as (w1 & Hrun & Hfile); try (vm_compute; reflexivity).
  - apply inherited_redirect_url_plain. exact Hm.
  - exists w1. split; [|exact Hfile].
    unfold redirect_removed_walker. cbn [walk]. rewrite bind_run.
    replace (scandir (fs world_xhtml) (["docs"] ++ parse_path "27"))
      with [("notes.xhtml", File (text_lines ["<html></html>"]))]
      by (vm_compute; reflexivity).
    rewrite bind_run.
    replace (redirect_removed_files fm fl ["docs"] "latest" "27" "28" true None
               (["docs"] ++ parse_path "27")
               (file_names [("notes.xhtml", File (text_lines ["<html></html>"]))]) world_xhtml)
      with (Ok tt, w1); [reflexivity |].
    symmetry. unfold redirect_removed_files.
    change (file_names [("notes.xhtml", File (text_lines ["<html></html>"]))])
      with ["notes.xhtml"].
    cbn [for_each]. rewrite bind_run.
    replace (Text.endswith "notes.xhtml" "html") with true by (vm_compute; reflexivity).
    replace ((["docs"] ++ parse_path "27") ++ ["notes.xhtml"])
      with ["docs"; "27"; "notes.xhtml"] by (vm_compute; reflexivity).
    now rewrite Hrun.
Qed.

(** ** The theorems at work on the scenario trees *)




Lemma redirect_write_once_witness :
  redirect_removed_file found_nothing found_nothing ["docs"] ["docs"; "27"; "page.html"]
    "latest" "27" "29" true (Some "WildFly") world_redirect_present
  = (Ok tt, world_redirect_present).
Proof.
  apply (proj1 (redirect_write_once found_nothing found_nothing
                  ["docs"] ["docs"; "27"; "page.html"] "latest" "27" world_redirect_present
                  ["docs"; "latest"; "page.html"] "../../27/page.html"
                  ltac:(vm_compute; reflexivity))).
  vm_compute. eexists. reflexivity.
Defined.

Lemma inherited_static_redirect_witness :
  exists w',
    redirect_removed_file found_meta found_link ["docs"] ["docs"; "27"; "old.html"]
      "latest" "27" "28" true None world_static_redirect = (Ok tt, w') /\
    fs w' !! ["docs"; "latest"; "old.html"] =
      Some (File (redirect_file_contents None "28" "moved.html")) /\
    Text.contains (refresh_tag "moved.html") (redirect_file_contents None "28" "moved.html")
      = true.
Proof.
  apply (inherited_static_redirect found_meta found_link
           ["docs"] ["docs"; "27"; "old.html"] "latest" "27" "28" true None
           world_static_redirect ["docs"; "latest"; "old.html"] "../../27/old.html"
           page_static_redirect
           (list_to_map [("http-equiv", "refresh"); ("content", "0; url=moved.html")])
           (list_to_map [("rel", "canonical"); ("href", "moved.html")])
           "moved.html" "0; url=moved.html");
    vm_compute; reflexivity.
Defined.

Lemma two_segment_rename_witness :
  exists w',
    redirect_removed_file found_nothing found_nothing ["docs"] ["docs"; "27"; "page.html"]
      "latest" "27" "28" true None world_removed_page = (Ok tt, w') /\
    fs w' !! ["docs"; "latest"; "page.html"] =
      Some (File (redirect_file_contents None "28" "/27/page.html")) /\
    Text.contains (refresh_tag "/27/page.html")
      (redirect_file_contents None "28" "/27/page.html") = true /\
    Text.contains (version_sentence "28")
      (redirect_file_contents None "28" "/27/page.html") = true.
Proof.
  apply (two_segment_rename found_nothing found_nothing world_removed_page
           (text_lines ["<html></html>"]));
    vm_compute; reflexivity.
Defined.

Lemma redirect_walker_visits_xhtml_witness :
  exists w1,
    redirect_removed_walker found_nothing found_nothing 2 ["docs"] "latest" "27" "28" true None
      world_xhtml = (Ok tt, w1) /\
    fs w1 !! ["docs"; "latest"; "notes.xhtml"] =
      Some (File (redirect_file_contents None "28" "/27/notes.xhtml")).
Proof.
  apply (redirect_walker_visits_xhtml found_nothing found_nothing). reflexivity.
Defined.

Lemma redirect_frame_witness :
  fs (snd (redirect_removed_file found_nothing found_nothing ["docs"]
             ["docs"; "27"; "page.html"] "latest" "27" "28" true None world_removed_page))
    !! ["docs"; "27"; "page.html"]
  = fs world_removed_page !! ["docs"; "27"; "page.html"].
Proof.
  apply (redirect_frame found_nothing found_nothing ["docs"] ["docs"; "27"; "page.html"]
           "latest" "27" "28" true None world_removed_page).
Defined.

(** * Further properties of the script *)

(** ** The frame of canonical stamping *)

(** Whatever [create_canonical_tag] does and however it ends, no path
    other than the stamped file changes; the stamped file, if it changes,
    was a regular file and is one afterwards; and standard output only
    grows. *)
Theorem create_canonical_tag_frame :
  forall base cdp file version abs (w : world),
    let w' := snd (create_canonical_tag base cdp file version abs w) in
    (forall p, p <> file -> fs w' !! p = fs w !! p) /\
    (fs w' !! file <> fs w !! file ->
     exists d d', fs w !! file = Some (File d) /\ fs w' !! file = Some (File d')) /\
    (exists out, stdout w' = stdout w ++ out).
Proof.
  intros base cdp file version abs w. cbn zeta.
  assert (Hsame : forall w0 : world, w0 = w ->
            (forall p, p <> file -> fs w0 !! p = fs w !! p) /\
            (fs w0 !! file <> fs w !! file ->
             exists d d', fs w !! file = Some (File d) /\ fs w0 !! file = Some (File d')) /\
            (exists out, stdout w0 = stdout w ++ out)).
  { intros w0 ->. split; [reflexivity | split; [now intros [] |]].
    exists []. now rewrite app_nil_r. }
  destruct (generate_canonical_url base file cdp version) as [vc|] eqn:Hg.
  2: { apply Hsame. unfold create_canonical_tag, bind, or_raise, raise. now rewrite Hg. }
  destruct (node_at (fs w) file) as [[data|]|] eqn:Hf.
  2, 3: apply Hsame; unfold create_canonical_tag, bind, or_raise, raise, ret, read_text;
        rewrite Hg; destruct abs; [destruct (absolute_url base file) |];
        cbn; rewrite ?Hf; reflexivity.
  destruct (create_canonical_tag_read base cdp file version abs w data Hf) as [url ->];
    [rewrite Hg; eauto |].
  destruct (stamp_lines _ _) as [new_lines| | |]; try (now apply Hsame).
  - unfold write_text. rewrite Hf.
    destruct (node_at (fs w) (parent file)) as [[d'|]|]; try (now apply Hsame).
    cbn [snd fs stdout].
    assert (Hne : file <> []) by (intros ->; discriminate).
    rewrite node_at_lookup in Hf by done.
    split; [intros p Hp; now rewrite lookup_insert_ne |].
    split; [intros _; exists data, (Text.concat_all new_lines);
            split; [exact Hf | apply lookup_insert_eq] |].
    exists []. now rewrite app_nil_r.
  - unfold print. cbn [snd fs stdout].
    split; [reflexivity | split; [now intros [] | eauto]].
Qed.

(** ** Stamping a well-formed document *)

Section WellFormed.

Import Re.






End WellFormed.

Section StampFacts.



Lemma scan_lines_head_kept :
  forall todo idx st st' l,
    line (head_closing_tag st) = Some l ->
    scan_lines idx todo st = Some st' ->
    head_closing_tag st' = head_closing_tag st.
Proof.
  induction todo as [|ln rest IH]; intros idx st st' l Hl; cbn [scan_lines].
  - now intros [= <-].
  - destruct (scan_step idx ln st) as [st1|] eqn:E; [|discriminate].
    assert (H1 : head_closing_tag st1 = head_closing_tag st).
    { unfold scan_step in E.
      destruct (Re.re_search META_REFRESH ln); [discriminate |].
      rewrite (bool_decide_eq_false_2 (line (head_closing_tag st) = None)) in E
        by (rewrite Hl; discriminate).
      rewrite andb_false_r in E.
      assert (Hs : forall z, set_match (head_closing_tag st) idx z = head_closing_tag st)
        by (intros z; unfold set_match; now rewrite Hl).
      destruct (Re.re_match CANON_LINE ln);
        [|destruct (Re.re_findall CANON_INLINE ln)];
        destruct (Re.re_search HEAD_INLINE ln) as [[start len]|];
        injection E as <-; cbn [head_closing_tag]; auto. }
    intros Hs. rewrite <- H1. apply (IH (S idx) st1 st' l); [now rewrite H1 | exact Hs].
Qed.



End StampFacts.




(** First wins: once a head-closing tag is recorded, no later line of the
    scan changes the record, whichever of the two tests the line passes. *)
Theorem head_first_wins :
  forall todo idx st st' l,
    line (head_closing_tag st) = Some l ->
    scan_lines idx todo st = Some st' ->
    head_closing_tag st' = head_closing_tag st.
Proof. exact scan_lines_head_kept. Qed.

Lemma head_first_wins_witness :
  exists st',
    scan_lines 1 ["</head>" +:+ nl; "x</head>" +:+ nl]
      (mkScan ["a"; "b"; "c"] [] (mkTag (Some 0) (Some 3%Z))) = Some st' /\
    head_closing_tag st' = mkTag (Some 0) (Some 3%Z).
Proof.
  eexists. split; [vm_compute; reflexivity |].
  apply (head_first_wins ["</head>" +:+ nl; "x</head>" +:+ nl] 1
           (mkScan ["a"; "b"; "c"] [] (mkTag (Some 0) (Some 3%Z))) _ 0);
    [reflexivity | vm_compute; reflexivity].
Defined.

(** ** Stamping a stamped document *)

Section Restamp.

Import Re.




End Restamp.



(** ** Edge cases of redirect synthesis *)

Section RedirectEdges.

Variable fm fl : string -> option (gmap string string).

(** The previous page is a redirect page with a canonical link, but the
    link has no [href], or the refresh tag no [content]: the subscript
    raises [KeyError], nothing is created and nothing is printed. *)
Theorem redirect_missing_attribute_raises :
  forall base prev cur prevd ver abs prod (w : world) rf url0 data meta link,
    generate_canonical_url base prev (base ++ parse_path prevd) cur = Some (rf, url0) ->
    node_at (fs w) rf = None ->
    node_at (fs w) prev = Some (File data) ->
    fm (Text.universal_newlines data) = Some meta ->
    fl (Text.universal_newlines data) = Some link ->
    link !! "href" = None \/ meta !! "content" = None ->
    redirect_removed_file fm fl base prev cur prevd ver abs prod w = (Raise KeyError, w).
Proof.
  intros base prev cur prevd ver abs prod w rf url0 data meta link Hg Hn Hp Hm Hl Hk.
  destruct (generate_candidate _ _ _ _ abs _ _ Hg) as [cand Hc].
  rewrite (redirect_removed_file_run fm fl _ _ _ _ _ _ _ _ _ _ _ Hg Hc).
  rewrite bool_decide_eq_false_2 by (rewrite Hn; now intros [? ?]).
  rewrite bind_run. unfold read_text. rewrite Hp, bind_run.
  unfold inherited_redirect_url. rewrite Hm, Hl, bind_run.
  destruct (link !! "href") as [href|]; [|reflexivity].
  destruct Hk as [Hk|Hk]; [discriminate |]. cbn. rewrite bind_run, Hk. reflexivity.
Qed.

(** The previous page is a redirect page, but it has no canonical link, or
    the link's [href] does not occur in the refresh tag's [content]: the
    page is synthesised with the computed URL. *)
Theorem redirect_keeps_computed_url :
  forall base prev cur prevd ver abs prod (w : world) rf url0 cand data meta,
    generate_canonical_url base prev (base ++ parse_path prevd) cur = Some (rf, url0) ->
    candidate_url base prev abs url0 = Some cand ->
    node_at (fs w) rf = None ->
    node_at (fs w) prev = Some (File data) ->
    no_file_above (fs w) (rev (parent rf)) = true ->
    fm (Text.universal_newlines data) = Some meta ->
    (fl (Text.universal_newlines data) = None \/
     exists link href content,
       fl (Text.universal_newlines data) = Some link /\
       link !! "href" = Some href /\ meta !! "content" = Some content /\
       Text.contains href content = false) ->
    exists w',
      redirect_removed_file fm fl base prev cur prevd ver abs prod w = (Ok tt, w') /\
      fs w' !! rf = Some (File (redirect_file_contents prod ver cand)).
Proof.
  intros base prev cur prevd ver abs prod w rf url0 cand data meta Hg Hc Hn Hp Hd Hm Hl.
  apply (redirect_created fm fl base prev cur prevd ver abs prod w rf url0 cand data cand);
    auto.
  unfold inherited_redirect_url. rewrite Hm.
  destruct Hl as [Hl|(link & href & content & Hl & Hh & Hcn & Hin)]; rewrite Hl;
    [reflexivity |].
  rewrite bind_run, Hh. cbn. rewrite bind_run, Hcn. cbn. now rewrite Hin.
Qed.

End RedirectEdges.

Lemma redirect_missing_attribute_raises_witness :
  redirect_removed_file found_meta found_link_no_href ["docs"] ["docs"; "27"; "old.html"]
    "latest" "27" "28" true None world_static_redirect
  = (Raise KeyError, world_static_redirect).
Proof.
  apply (redirect_missing_attribute_raises found_meta found_link_no_href
           ["docs"] ["docs"; "27"; "old.html"] "latest" "27" "28" true None
           world_static_redirect ["docs"; "latest"; "old.html"] "../../27/old.html"
           page_static_redirect
           (list_to_map [("http-equiv", "refresh"); ("content", "0; url=moved.html")])
           (list_to_map [("rel", "canonical")])).
  - vm_compute. reflexivity.
  - vm_compute. reflexivity.
  - vm_compute. reflexivity.
  - vm_compute. reflexivity.
  - vm_compute. reflexivity.
  - left. vm_compute. reflexivity.
Defined.

Lemma redirect_keeps_computed_url_witness :
  exists w',
    redirect_removed_file found_meta found_nothing ["docs"] ["docs"; "27"; "old.html"]
      "latest" "27" "28" true None world_static_redirect = (Ok tt, w') /\
    fs w' !! ["docs"; "latest"; "old.html"] =
      Some (File (redirect_file_contents None "28" "/27/old.html")).
Proof.
  apply (redirect_keeps_computed_url found_meta found_nothing
           ["docs"] ["docs"; "27"; "old.html"] "latest" "27" "28" true None
           world_static_redirect ["docs"; "latest"; "old.html"] "../../27/old.html"
           "/27/old.html" page_static_redirect
           (list_to_map [("http-equiv", "refresh"); ("content", "0; url=moved.html")])).
  - vm_compute. reflexivity.
  - vm_compute. reflexivity.
  - vm_compute. reflexivity.
  - vm_compute. reflexivity.
  - vm_compute. reflexivity.
  - vm_compute. reflexivity.
  - left. reflexivity.
Defined.

(** ** The rendered page *)

(** Whatever the target, the version and the product name are, the page
    names the same target four times: in its refresh tag, in its canonical
    link, and as the address and the text of its fallback anchor; and its
    first sentence names the version, after the product name when one is
    given and not empty. *)
Theorem rendered_page_targets :
  forall prod ver url,
    let page := redirect_file_contents prod ver url in
    Text.contains (refresh_tag url) page = true /\
    Text.contains (canonical_link_text url) page = true /\
    Text.contains (fallback_anchor url) page = true /\
    Text.contains (version_sentence (version_text prod ver)) page = true.
Proof.
  intros prod ver url page.
  assert (Hp : page = render_redirect url (version_text prod ver)).
  { unfold page, redirect_file_contents, version_text. now destruct prod as [[|c name]|]. }
  rewrite Hp. split; [apply render_contains_refresh |].
  split; [|split; [|apply render_contains_version]].
  - rewrite render_redirect_shape.
    set (rest := nth 2 REMOVED_REDIRECT_TEMPLATE "" +:+ _).
    set (pre := nth 0 REMOVED_REDIRECT_TEMPLATE "" +:+ url +:+ q +:+ ">" +:+ nl +:+ "    ").
    set (post := nl +:+ "  </head>" +:+ nl +:+ "  <body>" +:+ nl +:+
                 "    <p>The page does not exist in this version (" +:+
                 version_text prod ver +:+
                 nth 3 REMOVED_REDIRECT_TEMPLATE "" +:+ url +:+
                 nth 4 REMOVED_REDIRECT_TEMPLATE "" +:+ url +:+
                 nth 5 REMOVED_REDIRECT_TEMPLATE "").
    replace (nth 0 REMOVED_REDIRECT_TEMPLATE "" +:+ url +:+
             nth 1 REMOVED_REDIRECT_TEMPLATE "" +:+ url +:+ rest)
      with (pre +:+ canonical_link_text url +:+ post).
    + apply contains_infix.
    + subst pre post rest. unfold canonical_link_text, REMOVED_REDIRECT_TEMPLATE. cbn [nth].
      same_text.
  - rewrite render_redirect_shape.
    set (pre := nth 0 REMOVED_REDIRECT_TEMPLATE "" +:+ url +:+
                nth 1 REMOVED_REDIRECT_TEMPLATE "" +:+ url +:+
                nth 2 REMOVED_REDIRECT_TEMPLATE "" +:+ version_text prod ver +:+
                "). You will be redirected to the last available version in 3 seconds.</p>"
                +:+ nl +:+ "    <p>If the page doesn't open, click the following link: ").
    set (post := "</p>" +:+ nl +:+ "  </body>" +:+ nl +:+ "</html>").
    replace (nth 0 REMOVED_REDIRECT_TEMPLATE "" +:+ url +:+
             nth 1 REMOVED_REDIRECT_TEMPLATE "" +:+ url +:+
             nth 2 REMOVED_REDIRECT_TEMPLATE "" +:+ version_text prod ver +:+
             nth 3 REMOVED_REDIRECT_TEMPLATE "" +:+ url +:+
             nth 4 REMOVED_REDIRECT_TEMPLATE "" +:+ url +:+
             nth 5 REMOVED_REDIRECT_TEMPLATE "")
      with (pre +:+ fallback_anchor url +:+ post).
    + apply contains_infix.
    + subst pre post. unfold fallback_anchor, REMOVED_REDIRECT_TEMPLATE. cbn [nth].
      same_text.
Qed.

(** ** The walkers *)

Section WalkerFacts.

Lemma relative_to_some (p other r : list string) :
  relative_to p other = Some r -> p = other ++ r.
Proof.
  revert p. induction other as [|o other IH]; intros p H.
  - destruct p; cbn in H; now injection H as <-.
  - destruct p as [|x p]; [discriminate |]. cbn [relative_to] in H.
    destruct (String.eqb o x) eqn:E; [|discriminate].
    apply String.eqb_eq in E as ->. cbn. f_equal. now apply IH.
Qed.

(** The files a directory listing names are files of the tree. *)
Lemma scandir_file (f : gmap (list string) node) top name :
  name ∈ file_names (scandir f top) ->
  exists d, f !! (top ++ [name]) = Some (File d).
Proof.
  unfold file_names, scandir. intros H.
  apply list_elem_of_omap in H as ([name' n] & Hin & Hn). cbn in Hn.
  destruct n as [d|]; [|discriminate]. injection Hn as ->.
  destruct (node_at f top) as [[?|]|]; try (now apply elem_of_nil in Hin).
  apply list_elem_of_omap in Hin as ([p n'] & Hp & Hr). cbn in Hr.
  destruct (relative_to p top) as [[|x [|y r]]|] eqn:E; try discriminate.
  injection Hr as -> ->. apply relative_to_some in E as ->.
  apply elem_of_map_to_list in Hp. eauto.
Qed.

Lemma for_each_unchanged {A} (l : list A) (body : A -> M unit) (w : world) :
  (forall x, x ∈ l -> snd (body x w) = w) -> snd (for_each l body w) = w.
Proof.
  induction l as [|x l IH]; intros H; [reflexivity |].
  cbn [for_each]. rewrite bind_run.
  pose proof (H x (list_elem_of_here _ _)) as Hx.
  destruct (body x w) as [[[]|e|] w1]; cbn [snd] in Hx; subst w1; try reflexivity.
  apply IH. intros y Hy. apply H. now apply list_elem_of_further.
Qed.

Lemma canonical_tag_files_skip base cdp version abs parent files (w : world) :
  (forall f, f ∈ files -> Text.endswith f ".html" = false) ->
  canonical_tag_files base cdp version abs parent files w = (Ok tt, w).
Proof.
  induction files as [|f files IH]; intros H; [reflexivity |].
  unfold canonical_tag_files in *. cbn [for_each]. rewrite bind_run.
  rewrite (H f (list_elem_of_here _ _)). cbn.
  apply IH. intros g Hg. apply H. now apply list_elem_of_further.
Qed.

End WalkerFacts.

(** Only [.html] files are stamped: on a tree none of whose regular files
    has a name ending in [.html], the canonical walker changes nothing and
    prints nothing, to whatever depth it goes. *)
Theorem canonical_walker_skips_other_files :
  forall base cdp version abs (w : world),
    (forall dir name d, fs w !! (dir ++ [name]) = Some (File d) ->
                        Text.endswith name ".html" = false) ->
    forall fuel top,
      snd (walk fuel top (canonical_tag_files base cdp version abs) w) = w.
Proof.
  intros base cdp version abs w Hw. induction fuel as [|fuel IH]; intros top; [reflexivity |].
  cbn [walk]. rewrite bind_run, bind_run.
  rewrite canonical_tag_files_skip.
  - apply for_each_unchanged. intros d _. apply IH.
  - intros f Hf. destruct (scandir_file _ _ _ Hf) as [d Hd]. now apply (Hw top f d).
Qed.
